(** * dfyadgen: the request admission and caching layer of the two API routes

    A shallow embedding of [src/app/api/generate-ad/route.ts] and
    [src/app/api/inspect-ad/route.ts]: client identification, the rate-limit
    check, body validation, cache-key derivation, the cache-or-compute step and
    the mapping of errors to responses.

    A handler is a computation over the key-value store that may return early
    or throw; what the outside does during one invocation (the clock, the
    provider's reply, a store that rejects a call) is an argument, [Env].
    Strings are [string], one character for one UTF-16 code unit, which
    covers the texts whose code units lie below 256 (a [.length] is then
    [String.length]); JSON numbers are integers; time is a [Z] of
    milliseconds since the epoch.

    Of the packages the routes import, zod's parsing of the two schemas and
    the store's [get] and [set] with expiry are written out; the limiter is
    modelled from the specification; what is only called on values ([JSON],
    [Buffer], zod's message table, [Date], the stack of an [Error]) is an
    interface, [Platform]. *)

From stdpp Require Import base strings list gmap pretty.
From Stdlib Require Import ZArith Lia Ascii.

Open Scope Z_scope.

#[local] Set Warnings "-register-all".

(** ** JSON values, as JavaScript sees them *)

Inductive json : Type :=
| JNull
| JBool (b : bool)
| JNum (n : Z)
| JStr (s : string)
| JArr (items : list json)
| JObj (props : list (string * json)).

(** An object is its list of own properties in insertion order; a key is bound
    once, and a reader takes the first binding. *)
Fixpoint obj_get (k : string) (props : list (string * json)) : option json :=
  match props with
  | [] => None
  | (k', v) :: rest => if String.eqb k k' then Some v else obj_get k rest
  end.

(** [o[k] = v] in an object literal: an existing key keeps its place. *)
Fixpoint obj_set (k : string) (v : json) (props : list (string * json))
  : list (string * json) :=
  match props with
  | [] => [(k, v)]
  | (k', v') :: rest =>
      if String.eqb k k' then (k, v) :: rest else (k', v') :: obj_set k v rest
  end.

(** [j.k] for a property name that is neither an index nor [length]: [None] is
    [undefined].  (On [null] the access throws; the callers below treat the
    two alike, see [member].) *)
Definition json_get (k : string) (j : json) : option json :=
  match j with
  | JObj props => obj_get k props
  | _ => None
  end.

Definition is_null (j : json) : bool :=
  match j with
  | JNull => true
  | _ => false
  end.

(** JavaScript truthiness, [if (v)] and [!v]. *)
Definition truthy (j : json) : bool :=
  match j with
  | JNull => false
  | JBool b => b
  | JNum n => negb (n =? 0)
  | JStr s => negb (String.eqb s EmptyString)
  | JArr _ | JObj _ => true
  end.

Definition truthy_opt (o : option json) : bool :=
  match o with
  | Some j => truthy j
  | None => false
  end.

Fixpoint chars_from (i : nat) (s : string) : list (string * json) :=
  match s with
  | EmptyString => []
  | String c rest => (pretty i, JStr (String c EmptyString)) :: chars_from (S i) rest
  end.

(** The own enumerable properties that [{...v}] copies. *)
Definition spread (j : json) : list (string * json) :=
  match j with
  | JObj props => props
  | JArr items => imap (fun i v => (pretty i, v)) items
  | JStr s => chars_from 0 s
  | JNull | JBool _ | JNum _ => []
  end.

(** [{ k: v }] with [v] possibly [undefined]: [JSON.stringify] and
    [NextResponse.json] drop such a property. *)
Definition opt_prop (k : string) (v : option json) : list (string * json) :=
  match v with
  | Some j => [(k, j)]
  | None => []
  end.

(** ** zod, as far as the two schemas use it *)

Inductive ZodIssueCode : Type :=
| invalid_type (expected received : string)
| too_small (minimum : nat)
| too_big (maximum : nat)
| invalid_enum_value (options : list string) (received : string).

Record ZodIssue : Type := mkIssue { code : ZodIssueCode; path : list string }.

(** ** What the routes call but do not define *)

Class Platform : Type := {
  (** [JSON.parse], [None] when it throws *)
  JSON_parse : string -> option json;
  JSON_stringify : json -> string;
  (** [Buffer.from(s).toString('base64')] *)
  base64 : string -> string;
  (** zod's error map: the [message] of an issue *)
  errorMap : ZodIssueCode -> string;
  (** the [message] of a [ZodError], a rendering of its issues *)
  zodErrorMessage : list ZodIssue -> string;
  (** [new Date(ms).toISOString()] *)
  toISOString : Z -> string;
  (** the [stack] a [new Error(message)] captures *)
  captureStack : string -> string
}.

Inductive StringCheck : Type :=
| Min (n : nat)
| Max (n : nat).

Inductive ZodType : Type :=
| ZString (checks : list StringCheck)
| ZEnum (values : list string)
| ZOptional (inner : ZodType).

Module z.
Definition string_ : ZodType := ZString [].
Definition min (n : nat) (t : ZodType) : ZodType :=
  match t with
  | ZString cs => ZString (cs ++ [Min n])
  | _ => t
  end.
Definition max (n : nat) (t : ZodType) : ZodType :=
  match t with
  | ZString cs => ZString (cs ++ [Max n])
  | _ => t
  end.
Definition enum (values : list string) : ZodType := ZEnum values.
Definition optional (t : ZodType) : ZodType := ZOptional t.
End z.

(** zod's [getParsedType], on a value that may be [undefined]. *)
Definition getParsedType (input : option json) : string :=
  match input with
  | None => "undefined"
  | Some JNull => "null"
  | Some (JBool _) => "boolean"
  | Some (JNum _) => "number"
  | Some (JStr _) => "string"
  | Some (JArr _) => "array"
  | Some (JObj _) => "object"
  end.

Fixpoint join (sep : string) (parts : list string) : string :=
  match parts with
  | [] => EmptyString
  | [p] => p
  | p :: rest => p +:+ sep +:+ join sep rest
  end.

Definition joinValues (values : list string) : string :=
  join " | " (map (fun v => "'" +:+ v +:+ "'") values).

Definition run_check (p : list string) (s : string) (c : StringCheck) : list ZodIssue :=
  match c with
  | Min n => if (String.length s <? n)%nat then [mkIssue (too_small n) p] else []
  | Max n => if (n <? String.length s)%nat then [mkIssue (too_big n) p] else []
  end.

Definition string_in (s : string) (values : list string) : bool :=
  existsb (String.eqb s) values.

(** [_parse] of a field schema at path [p]: the issues it adds and the value it
    yields ([None] is [undefined], also after an aborting issue). *)
Fixpoint parse_type (t : ZodType) (p : list string) (input : option json)
  : list ZodIssue * option json :=
  match t with
  | ZString checks =>
      match input with
      | Some (JStr s) => (flat_map (run_check p s) checks, Some (JStr s))
      | _ => ([mkIssue (invalid_type "string" (getParsedType input)) p], None)
      end
  | ZEnum values =>
      match input with
      | Some (JStr s) =>
          if string_in s values then ([], Some (JStr s))
          else ([mkIssue (invalid_enum_value values s) p], None)
      | _ => ([mkIssue (invalid_type (joinValues values) (getParsedType input)) p], None)
      end
  | ZOptional inner =>
      match input with
      | None => ([], None)
      | Some _ => parse_type inner p input
      end
  end.

(** [ZodObject._parse] over the shape's keys in their order; unknown keys of
    the input are stripped, and a key whose value is [undefined] is not set. *)
Fixpoint parse_shape (shape : list (string * ZodType)) (data : list (string * json))
  : list ZodIssue * list (string * json) :=
  match shape with
  | [] => ([], [])
  | (key, t) :: rest =>
      let '(issues1, v) := parse_type t [key] (obj_get key data) in
      let '(issues2, out) := parse_shape rest data in
      (issues1 ++ issues2, opt_prop key v ++ out)
  end.

Inductive SafeParse : Type :=
| ParseSuccess (data : json)
| ParseError (issues : list ZodIssue).

Definition safeParse (shape : list (string * ZodType)) (body : json) : SafeParse :=
  match body with
  | JObj data =>
      match parse_shape shape data with
      | ([], out) => ParseSuccess (JObj out)
      | (issues, _) => ParseError issues
      end
  | _ => ParseError [mkIssue (invalid_type "object" (getParsedType (Some body))) []]
  end.

Definition GenerateAdSchema : list (string * ZodType) :=
  [ ("targetAudience", z.max 100 (z.min 10 z.string_));
    ("goal", z.max 100 (z.min 10 z.string_));
    ("uniqueSellingPoint", z.max 200 (z.min 10 z.string_));
    ("contextDescription", z.max 500 (z.min 20 z.string_));
    ("brandVoice", z.enum ["Professional"; "Friendly"; "Witty"; "Urgent"; "Inspirational"]);
    ("keyEmotion", z.enum ["FOMO"; "Trust"; "Excitement"; "Curiosity"; "Anger/Solve Pain"]);
    ("competitors", z.optional (z.max 100 z.string_));
    ("adFormat", z.enum ["Single Image"; "Carousel"; "Video"; "Story"]);
    ("industry", z.enum ["General"; "Health"; "Finance"; "E-commerce"; "SaaS"; "Real Estate"; "Other"]);
    ("preferredCTA", z.enum ["Shop Now"; "Learn More"; "Get Offer"; "Sign Up"; "Book Now"; "Claim Discount"]);
    ("visualDirection", z.enum ["Lifestyle"; "Product Close-Up"; "Before/After"; "User-Generated"; "Infographic"]) ].

Definition InspectAdSchema : list (string * ZodType) :=
  [ ("headline", z.max 120 (z.min 5 z.string_));
    ("body", z.max 500 (z.min 10 z.string_));
    ("cta", z.max 50 (z.min 2 z.string_));
    ("offerDescription", z.max 500 (z.min 10 z.string_));
    ("websiteOrBrand", z.optional (z.max 50 z.string_));
    ("adType", z.enum ["facebook"; "instagram"; "google-search"; "google-display"]);
    ("industry", z.enum ["General"; "Health"; "Finance"; "E-commerce"; "SaaS"; "Real Estate"; "Other"]) ].

(** ** Requests, responses and thrown values *)

Record Request : Type := {
  x_forwarded_for : option string;   (* [request.headers.get('x-forwarded-for')] *)
  text : string                      (* the body, as sent *)
}.

Record Response : Type := { status : Z; payload : json }.

(** [NextResponse.json(body, { status })]; the status defaults to 200. *)
Definition NextResponse_json (body : json) (st : Z) : Response :=
  {| status := st; payload := body |}.

Record ErrorObject : Type := { name : string; message : string; stack : string }.

Inductive Thrown : Type :=
| ThrownError (e : ErrorObject)          (* [instanceof Error], not a ZodError *)
| ThrownZod (issues : list ZodIssue)     (* [instanceof z.ZodError] *)
| ThrownOther.                           (* a thrown value that is no Error *)

(** How a call into the store rejects. *)
Inductive Rejection : Type :=
| RejectError (e : ErrorObject)
| RejectOther.

Definition thrown_of (r : Rejection) : Thrown :=
  match r with
  | RejectError e => ThrownError e
  | RejectOther => ThrownOther
  end.

(** What [openai.chat.completions.create] does: it rejects with an [Error] of
    the SDK (transport, timeout, HTTP status), or resolves to a completion with
    [choices[0]?.message?.content] and [usage?.total_tokens]. *)
Inductive ProviderReply : Type :=
| ProviderRejects (e : ErrorObject)
| ProviderReturns (content : option string) (total_tokens : option Z).

(** What the outside does during one invocation of a handler. *)
Record Env : Type := {
  now : Z;                              (* [Date.now()] *)
  NODE_ENV : string;
  limit_rejects : option Rejection;     (* the store is down at the limiter's call *)
  get_rejects : option Rejection;       (* [kv.get] rejects *)
  set_rejects : option Rejection;       (* [kv.set] rejects *)
  completion : ProviderReply
}.

Inductive Event : Type :=
| EvLimit (key : string)
| EvCacheGet (key : string)
| EvCacheSet (key : string) (value : json) (ex : Z)
| EvProvider (model : string) (inputs : json)
| EvConsole (level label : string).

(** The key-value store (limiter windows and cache entries with the instant
    they expire at) and the effects performed so far, oldest first. *)
Record World : Type := {
  windows : gmap string (list Z);
  entries : gmap string (json * Z);
  trace : list Event
}.

Definition log (e : Event) (w : World) : World :=
  {| windows := windows w; entries := entries w; trace := trace w ++ [e] |}.

Definition set_windows (ws : gmap string (list Z)) (w : World) : World :=
  {| windows := ws; entries := entries w; trace := trace w |}.

Definition set_entries (es : gmap string (json * Z)) (w : World) : World :=
  {| windows := windows w; entries := es; trace := trace w |}.

(** ** The handler monad: state, exceptions and [return] *)

Inductive Outcome (A : Type) : Type :=
| Next (a : A)                (* fall through to the next statement *)
| Return_ (r : Response)      (* [return r] *)
| Throw (t : Thrown).         (* [throw t], or a rejected promise awaited *)
Arguments Next {A} a.
Arguments Return_ {A} r.
Arguments Throw {A} t.

Definition Handler (A : Type) : Type := World -> Outcome A * World.

Definition pure {A} (a : A) : Handler A := fun w => (Next a, w).
Definition return_ {A} (r : Response) : Handler A := fun w => (Return_ r, w).
Definition throw {A} (t : Thrown) : Handler A := fun w => (Throw t, w).

Definition bind {A B} (m : Handler A) (k : A -> Handler B) : Handler B :=
  fun w =>
    match m w with
    | (Next a, w') => k a w'
    | (Return_ r, w') => (Return_ r, w')
    | (Throw t, w') => (Throw t, w')
    end.

Declare Scope handler_scope.
Delimit Scope handler_scope with handler.
Notation "x <- m ;; k" := (bind m (fun x => k))
  (at level 100, m at next level, right associativity) : handler_scope.
Notation "m ;; k" := (bind m (fun _ => k))
  (at level 100, right associativity) : handler_scope.

(** [try { m } catch (e) { h e }] and [promise.catch(h)]: a [return] inside the
    block is not an exception. *)
Definition catch {A} (m : Handler A) (h : Thrown -> Handler A) : Handler A :=
  fun w =>
    match m w with
    | (Throw t, w') => h t w'
    | other => other
    end.

Definition when_ (c : bool) (m : Handler unit) : Handler unit :=
  if c then m else pure tt.

Definition emit (e : Event) : Handler unit := fun w => (Next tt, log e w).

(** The function body: its result is what it returns.  An exception that
    escaped would be the framework's own 500; both handlers catch everything
    (see [POST_catches_all]). *)
Definition run (m : Handler Response) (w : World) : Response * World :=
  match m w with
  | (Next r, w') => (r, w')
  | (Return_ r, w') => (r, w')
  | (Throw _, w') => (NextResponse_json JNull 500, w')
  end.

(** ** The key-value store *)

(** [kv.get(key)]: the value, or [null] when the key is unset or has expired. *)
Definition kv_get (env : Env) (key : string) : Handler json :=
  (emit (EvCacheGet key) ;;
   match get_rejects env with
   | Some r => throw (thrown_of r)
   | None =>
       fun w =>
         match entries w !! key with
         | Some (v, expires) => (Next (if now env <? expires then v else JNull), w)
         | None => (Next JNull, w)
         end
   end)%handler.

(** [kv.set(key, value, { ex })], [ex] in seconds. *)
Definition kv_set (env : Env) (key : string) (value : json) (ex : Z) : Handler unit :=
  (emit (EvCacheSet key value ex) ;;
   match set_rejects env with
   | Some r => throw (thrown_of r)
   | None => fun w => (Next tt, set_entries (<[key := (value, now env + ex * 1000)]> (entries w)) w)
   end)%handler.

(** ** The rate limiter *)

Record Ratelimit : Type := {
  prefix : string;
  tokens : nat;       (* requests per window *)
  window : Z          (* milliseconds *)
}.

(** [new Ratelimit({ limiter: Ratelimit.slidingWindow(tokens, '<seconds>s'), prefix })] *)
Definition new_Ratelimit (tokens : nat) (seconds : Z) (prefix : string) : Ratelimit :=
  {| prefix := prefix; tokens := tokens; window := seconds * 1000 |}.

Definition limiter_key (rl : Ratelimit) (identifier : string) : string :=
  prefix rl +:+ ":" +:+ identifier.

(** The admitted requests of [log] that lie in the window that ends at [now]. *)
Definition recent (rl : Ratelimit) (now : Z) (log : list Z) : list Z :=
  List.filter (fun t => now - window rl <? t) log.

(** Modelled from the spec: the sliding-window limiter of the package
    [@upstash/ratelimit], whose code is not part of the repository's source.
    Per client key it counts the admitted requests of the trailing window
    ("counts requests in a trailing time interval rather than fixed buckets"),
    admits while fewer than [tokens] lie in it, and reports as [reset] the
    instant at which the oldest of them leaves the window. *)
Definition slidingWindow (rl : Ratelimit) (identifier : string) (now : Z)
    (ws : gmap string (list Z)) : (bool * Z) * gmap string (list Z) :=
  let key := limiter_key rl identifier in
  let seen := recent rl now (default [] (ws !! key)) in
  let reset := List.last seen now + window rl in
  if (length seen <? tokens rl)%nat
  then ((true, reset), <[key := now :: seen]> ws)
  else ((false, reset), ws).

(** [ratelimit.limit(identifier)] followed by [await pending]: the pair
    [(success, reset)]. *)
Definition ratelimit_limit (rl : Ratelimit) (env : Env) (identifier : string)
  : Handler (bool * Z) :=
  (emit (EvLimit (limiter_key rl identifier)) ;;
   match limit_rejects env with
   | Some r => throw (thrown_of r)
   | None =>
       fun w =>
         let '(decision, ws) := slidingWindow rl identifier (now env) (windows w) in
         (Next decision, set_windows ws w)
   end)%handler.

(** ** Client identification *)

(** What [trim] strips, among the code units below 256: tab to carriage
    return, space and no-break space. *)
Definition is_space (c : ascii) : bool :=
  let n := nat_of_ascii c in
  ((n =? 32) || (n =? 160) || ((9 <=? n) && (n <=? 13)))%nat.

Fixpoint before_comma (s : string) : string :=
  match s with
  | EmptyString => EmptyString
  | String c rest => if Ascii.eqb c ","%char then EmptyString else String c (before_comma rest)
  end.

Fixpoint trimStart (s : string) : string :=
  match s with
  | EmptyString => EmptyString
  | String c rest => if is_space c then trimStart rest else s
  end.

Definition trim (s : string) : string :=
  String.rev (trimStart (String.rev (trimStart s))).

(** [request.headers.get('x-forwarded-for')?.split(',')[0]?.trim() || '127.0.0.1'] *)
Definition client_ip (request : Request) : string :=
  match x_forwarded_for request with
  | None => "127.0.0.1"
  | Some h =>
      let first := trim (before_comma h) in
      if String.eqb first EmptyString then "127.0.0.1" else first
  end.

(** ** The two route handlers *)

Inductive Endpoint : Type := Generate | Inspect.

Section Routes.
Context `{Platform}.

Definition new_Error (msg : string) : Thrown :=
  ThrownError {| name := "Error"; message := msg; stack := captureStack msg |}.

(** The exception of a failed [JSON.parse] or of a property read on [null];
    every handler of one below discards it. *)
Definition native_error (kind : string) : Thrown :=
  ThrownError {| name := kind; message := EmptyString; stack := captureStack EmptyString |}.

(** [error instanceof Error], with what the object then carries. *)
Definition as_Error (t : Thrown) : option ErrorObject :=
  match t with
  | ThrownError e => Some e
  | ThrownZod issues =>
      Some {| name := "ZodError"; message := zodErrorMessage issues;
              stack := captureStack (zodErrorMessage issues) |}
  | ThrownOther => None
  end.

(** [`${error.message}`] *)
Definition message_of (t : Thrown) : string :=
  match as_Error t with
  | Some e => message e
  | None => "undefined"
  end.

(** [request.json()] *)
Definition request_json (request : Request) : Handler json :=
  match JSON_parse (text request) with
  | Some j => pure j
  | None => throw (native_error "SyntaxError")
  end.

(** [JSON.parse(content)] *)
Definition parse_content (content : string) : Handler json :=
  match JSON_parse content with
  | Some j => pure j
  | None => throw (native_error "SyntaxError")
  end.

(** [j.k] as a statement that may throw. *)
Definition member (j : json) (k : string) : Handler (option json) :=
  if is_null j then throw (native_error "TypeError") else pure (json_get k j).

(** [Schema.parse(body)] *)
Definition parse (shape : list (string * ZodType)) (body : json) : Handler json :=
  match safeParse shape body with
  | ParseSuccess data => pure data
  | ParseError issues => throw (ThrownZod issues)
  end.

(** [issues.map(e => ({ path: e.path.join('.'), message: e.message }))] *)
Definition issue_json (e : ZodIssue) : json :=
  JObj [("path", JStr (join "." (path e))); ("message", JStr (errorMap (code e)))].

Definition validation_failed (issues : list ZodIssue) : Response :=
  NextResponse_json
    (JObj [("error", JStr "Validation failed"); ("issues", JArr (map issue_json issues))])
    400.

Definition limit_reached (msg : string) (reset : Z) : Response :=
  NextResponse_json
    (JObj [("error", JStr msg); ("reset", JStr (toISOString reset));
           ("upgradeUrl", JStr "/pricing")])
    429.

(** [openai.chat.completions.create({ model, messages, ... })]; the prompt is
    interpolated from the validated fields. *)
Definition openai_create (env : Env) (model : string) (validated : json)
  : Handler (option string * option Z) :=
  (emit (EvProvider model validated) ;;
   match completion env with
   | ProviderRejects e => throw (ThrownError e)
   | ProviderReturns content total_tokens => pure (content, total_tokens)
   end)%handler.

(** [!content] *)
Definition no_content (content : option string) : bool :=
  match content with
  | Some s => String.eqb s EmptyString
  | None => true
  end.

Definition cacheKey (e : Endpoint) (validated : json) : string :=
  match e with
  | Generate => "gen-ad:" +:+ base64 (JSON_stringify validated)
  | Inspect => "inspect:" +:+ base64 (JSON_stringify validated)
  end.

Definition ratelimit (e : Endpoint) : Ratelimit :=
  match e with
  | Generate => new_Ratelimit 3 86400 "adgen-ratelimit"
  | Inspect => new_Ratelimit 3 86400 "adinsp-ratelimit"
  end.

Definition identifier (e : Endpoint) (ip : string) : string :=
  match e with
  | Generate => "gen_" +:+ ip
  | Inspect => "insp_" +:+ ip
  end.

Definition generate_body (env : Env) (request : Request) (ip : string) : Handler Response :=
  (d <- ratelimit_limit (ratelimit Generate) env (identifier Generate ip) ;;
   when_ (negb d.1) (return_ (limit_reached "Free limit reached!" d.2)) ;;
   body <- catch (request_json request)
             (fun _ => throw (new_Error "Invalid JSON payload")) ;;
   validated <- parse GenerateAdSchema body ;;
   let key := cacheKey Generate validated in
   cached <- catch (kv_get env key) (fun _ => pure JNull) ;;
   when_ (truthy cached) (return_ (NextResponse_json cached 200)) ;;
   response <- catch (openai_create env "gpt-4" validated)
                 (fun error =>
                    emit (EvConsole "error" "OpenAI API error:") ;;
                    throw (new_Error ("OpenAI request failed: " +:+ message_of error))) ;;
   when_ (no_content response.1) (throw (new_Error "Empty response from OpenAI")) ;;
   let content := default EmptyString response.1 in
   parsed <- catch
               (parsed <- parse_content content ;;
                ads <- member parsed "ads" ;;
                when_ (negb (truthy_opt ads)) (throw (new_Error "Invalid response format")) ;;
                pure parsed)
               (fun _ =>
                  emit (EvConsole "error" "Failed to parse OpenAI response:") ;;
                  throw (new_Error "Received malformed ad data")) ;;
   let ads := opt_prop "ads" (json_get "ads" parsed) in
   catch (kv_set env key (JObj ads) 3600)
     (fun _ => emit (EvConsole "warn" "Cache set failed:")) ;;
   return_ (NextResponse_json
              (JObj (ads ++
                 [("meta", JObj ([("cache", JStr "miss"); ("model", JStr "gpt-4")]
                                 ++ opt_prop "tokens" (JNum <$> response.2)))]))
              200))%handler.

Definition generate_catch (error : Thrown) : Handler Response :=
  (emit (EvConsole "error" "Endpoint error:") ;;
   match error with
   | ThrownZod issues => return_ (validation_failed issues)
   | _ =>
       return_ (NextResponse_json
                  (JObj [("error", JStr (from_option message "Generation failed" (as_Error error)));
                         ("code", JStr (from_option name "UNKNOWN_ERROR" (as_Error error)))])
                  500)
   end)%handler.

Definition POST_generate (env : Env) (request : Request) : World -> Response * World :=
  let ip := client_ip request in
  run (catch (generate_body env request ip) generate_catch).

Definition inspect_body (env : Env) (request : Request) (ip : string) : Handler Response :=
  (d <- ratelimit_limit (ratelimit Inspect) env (identifier Inspect ip) ;;
   when_ (negb d.1) (return_ (limit_reached "Analysis limit reached!" d.2)) ;;
   body <- catch (request_json request)
             (fun _ => throw (new_Error "Invalid JSON payload")) ;;
   validated <- match safeParse InspectAdSchema body with
                | ParseError issues => return_ (validation_failed issues)
                | ParseSuccess data => pure data
                end ;;
   let key := cacheKey Inspect validated in
   cached <- catch (kv_get env key) (fun _ => pure JNull) ;;
   when_ (truthy cached)
     (return_ (NextResponse_json
                 (JObj (obj_set "meta" (JObj [("cache", JStr "hit")]) (spread cached)))
                 200)) ;;
   response <- catch (openai_create env "gpt-4" validated)
                 (fun error =>
                    emit (EvConsole "error" "OpenAI API error:") ;;
                    throw (new_Error ("Analysis failed: " +:+ message_of error))) ;;
   when_ (no_content response.1) (throw (new_Error "Empty response from OpenAI")) ;;
   let content := default EmptyString response.1 in
   analysis <- catch
                 (analysis <- parse_content content ;;
                  grade <- member analysis "grade" ;;
                  suggestions <- (if truthy_opt grade
                                  then member analysis "suggestions"
                                  else pure None) ;;
                  when_ (negb (truthy_opt grade) || negb (truthy_opt suggestions))
                    (throw (new_Error "Invalid analysis format")) ;;
                  pure analysis)
                 (fun _ =>
                    emit (EvConsole "error" "Failed to parse analysis:") ;;
                    throw (new_Error "Received malformed analysis data")) ;;
   catch (kv_set env key (JObj [("analysis", analysis)]) 86400)
     (fun _ => emit (EvConsole "warn" "Cache set failed:")) ;;
   return_ (NextResponse_json
              (JObj [("analysis", analysis);
                     ("meta", JObj ([("cache", JStr "miss"); ("model", JStr "gpt-4")]
                                    ++ opt_prop "tokens" (JNum <$> response.2)
                                    ++ [("analyzedAt", JStr (toISOString (now env)))]))])
              200))%handler.

Definition inspect_catch (env : Env) (error : Thrown) : Handler Response :=
  (emit (EvConsole "error" "Inspection error:") ;;
   return_ (NextResponse_json
              (JObj ([("error", JStr (from_option message "Analysis failed" (as_Error error)));
                      ("code", JStr (from_option name "UNKNOWN_ERROR" (as_Error error)))]
                     ++ opt_prop "stack"
                          (if String.eqb (NODE_ENV env) "development"
                           then JStr <$> (stack <$> as_Error error)
                           else None)))
              500))%handler.

Definition POST_inspect (env : Env) (request : Request) : World -> Response * World :=
  let ip := client_ip request in
  run (catch (inspect_body env request ip) (inspect_catch env)).

Definition POST (e : Endpoint) : Env -> Request -> World -> Response * World :=
  match e with
  | Generate => POST_generate
  | Inspect => POST_inspect
  end.

End Routes.

(** ** Vocabulary for the statements *)

Definition schema (e : Endpoint) : list (string * ZodType) :=
  match e with
  | Generate => GenerateAdSchema
  | Inspect => InspectAdSchema
  end.

Definition limit_message (e : Endpoint) : string :=
  match e with
  | Generate => "Free limit reached!"
  | Inspect => "Analysis limit reached!"
  end.

Definition malformed_message (e : Endpoint) : string :=
  match e with
  | Generate => "Received malformed ad data"
  | Inspect => "Received malformed analysis data"
  end.

(** The seconds an entry is stored for. *)
Definition ttl (e : Endpoint) : Z :=
  match e with
  | Generate => 3600
  | Inspect => 86400
  end.

Definition with_get_rejects (r : option Rejection) (env : Env) : Env :=
  {| now := now env; NODE_ENV := NODE_ENV env; limit_rejects := limit_rejects env;
     get_rejects := r; set_rejects := set_rejects env; completion := completion env |}.

Definition with_set_rejects (r : option Rejection) (env : Env) : Env :=
  {| now := now env; NODE_ENV := NODE_ENV env; limit_rejects := limit_rejects env;
     get_rejects := get_rejects env; set_rejects := r; completion := completion env |}.

(** Events that touch the cache or the provider. *)
Definition touches_cache_or_provider (ev : Event) : bool :=
  match ev with
  | EvCacheGet _ | EvCacheSet _ _ _ | EvProvider _ _ => true
  | EvLimit _ | EvConsole _ _ => false
  end.

Definition is_cache_write (ev : Event) : bool :=
  match ev with
  | EvCacheSet _ _ _ => true
  | _ => false
  end.

Definition is_provider_call (ev : Event) : bool :=
  match ev with
  | EvProvider _ _ => true
  | _ => false
  end.

(** The value an endpoint stores for a provider answer [j], and the part of
    the answer that is the payload of the response. *)
Definition stored (e : Endpoint) (j : json) : json :=
  match e with
  | Generate => JObj (opt_prop "ads" (json_get "ads" j))
  | Inspect => JObj [("analysis", j)]
  end.

Definition content_key (e : Endpoint) : string :=
  match e with
  | Generate => "ads"
  | Inspect => "analysis"
  end.

Definition payload_content (e : Endpoint) (j : json) : option json :=
  match e with
  | Generate => json_get "ads" j
  | Inspect => Some j
  end.

(** The provider's answer has the fields the endpoint checks for. *)
Definition has_required (e : Endpoint) (j : json) : Prop :=
  match e with
  | Generate => truthy_opt (json_get "ads" j) = true
  | Inspect => truthy_opt (json_get "grade" j) = true /\
               truthy_opt (json_get "suggestions" j) = true
  end.

(** [r.meta.cache] *)
Definition cache_mark (r : Response) : option json :=
  json_get "meta" (payload r) ≫= json_get "cache".

(** The keys of the cache reads and writes among some events, in order. *)
Definition cache_keys (evs : list Event) : list string :=
  flat_map (fun ev => match ev with
                      | EvCacheGet k | EvCacheSet k _ _ => [k]
                      | _ => []
                      end) evs.

(** The limiter's key of a client on an endpoint. *)
Definition client_key (e : Endpoint) (ip : string) : string :=
  limiter_key (ratelimit e) (identifier e ip).

(** What the limiter decides for a request, and the windows it leaves. *)
Definition decision (e : Endpoint) (env : Env) (request : Request) (w : World)
  : (bool * Z) * gmap string (list Z) :=
  slidingWindow (ratelimit e) (identifier e (client_ip request)) (now env) (windows w).

(** The request passes the rate-limit check. *)
Definition allowed (e : Endpoint) (env : Env) (request : Request) (w : World) : Prop :=
  limit_rejects env = None /\ (decision e env request w).1.1 = true.

(** The admitted requests of a client on an endpoint that the store holds,
    and how many of them lie in the window that ends at [t]. *)
Definition history (e : Endpoint) (ip : string) (w : World) : list Z :=
  default [] (windows w !! client_key e ip).

Definition used (e : Endpoint) (ip : string) (t : Z) (w : World) : nat :=
  length (recent (ratelimit e) t (history e ip w)).

(** What [kv.get(key).catch(() => null)] yields. *)
Definition cached_value (env : Env) (key : string) (w : World) : json :=
  match get_rejects env with
  | Some _ => JNull
  | None =>
      match entries w !! key with
      | Some (v, expires) => if now env <? expires then v else JNull
      | None => JNull
      end
  end.

(** A field value that offends its schema: a required field that is missing,
    a string outside a length bound, a string outside an enum, a value that
    is no string. *)
Inductive offends : ZodType -> option json -> Prop :=
| missing_string checks : offends (ZString checks) None
| missing_enum values : offends (ZEnum values) None
| no_string checks j : (forall s, j <> JStr s) -> offends (ZString checks) (Some j)
| no_enum_string values j : (forall s, j <> JStr s) -> offends (ZEnum values) (Some j)
| too_short checks n s :
    In (Min n) checks -> (String.length s < n)%nat -> offends (ZString checks) (Some (JStr s))
| too_long checks n s :
    In (Max n) checks -> (n < String.length s)%nat -> offends (ZString checks) (Some (JStr s))
| not_in_enum values s :
    ~ In s values -> offends (ZEnum values) (Some (JStr s))
| in_optional t j : offends t (Some j) -> offends (ZOptional t) (Some j).

(** The response reports errors per field: an [issues] array of objects with a
    [path] and a [message]. *)
Definition has_field_errors (r : Response) : Prop :=
  exists issues,
    json_get "issues" (payload r) = Some (JArr issues) /\
    Forall (fun i => exists p m, json_get "path" i = Some (JStr p) /\
                                 json_get "message" i = Some (JStr m)) issues.

(** The provider's answer lacks a field the endpoint requires. *)
Definition lacks_required (e : Endpoint) (j : json) : Prop :=
  match e with
  | Generate => json_get "ads" j = None
  | Inspect => json_get "grade" j = None \/ json_get "suggestions" j = None
  end.

Section Traffic.
Context `{Platform}.

(** The request body parses and validates to [validated]. *)
Definition valid_body (e : Endpoint) (request : Request) (validated : json) : Prop :=
  exists body, JSON_parse (text request) = Some body /\
               safeParse (schema e) body = ParseSuccess validated.

(** The provider's content does not parse, or lacks a required field. *)
Definition malformed (e : Endpoint) (content : string) : Prop :=
  JSON_parse content = None \/
  exists j, JSON_parse content = Some j /\ lacks_required e j.

(** Requests of other clients, or of this client to the other endpoint, that
    the store serves in between. *)
Inductive other_traffic (e : Endpoint) (ip : string) : World -> World -> Prop :=
| other_none w : other_traffic e ip w w
| other_request w e' env request w' :
    (e', client_ip request) <> (e, ip) ->
    other_traffic e ip (POST e' env request w).2 w' ->
    other_traffic e ip w w'.

End Traffic.

(** ** A platform to run the handlers on

    A serializer and base64 for ASCII text, zod's default English messages
    and an ISO-8601 clock.  Its [JSON.parse] reads the documents of a table
    back from their serialization, which is all the examples post. *)

Module Fixture.

Definition quote : string := String (ascii_of_nat 34) EmptyString.

Fixpoint escape (s : string) : string :=
  match s with
  | EmptyString => EmptyString
  | String c rest =>
      if ((nat_of_ascii c =? 34) || (nat_of_ascii c =? 92))%nat
      then String (ascii_of_nat 92) (String c (escape rest))
      else String c (escape rest)
  end.

Definition quoted (s : string) : string := quote +:+ escape s +:+ quote.

Fixpoint stringify (j : json) : string :=
  match j with
  | JNull => "null"
  | JBool true => "true"
  | JBool false => "false"
  | JNum n => pretty n
  | JStr s => quoted s
  | JArr items => "[" +:+ join "," (map stringify items) +:+ "]"
  | JObj props =>
      "{" +:+ join "," (map (fun '(k, v) => quoted k +:+ ":" +:+ stringify v) props) +:+ "}"
  end.

Definition alphabet : string :=
  "ABCDEFGHIJKLMNOPQRSTUVWXYZabcdefghijklmnopqrstuvwxyz0123456789+/".

Definition sextet (n : N) : string :=
  match String.get (N.to_nat (n mod 64)) alphabet with
  | Some c => String c EmptyString
  | None => "="
  end.

Fixpoint encode (bytes : list N) : string :=
  match bytes with
  | [] => EmptyString
  | [a] =>
      let n := (a * 65536)%N in
      sextet (n / 262144) +:+ sextet (n / 4096) +:+ "=="
  | [a; b] =>
      let n := (a * 65536 + b * 256)%N in
      sextet (n / 262144) +:+ sextet (n / 4096) +:+ sextet (n / 64) +:+ "="
  | a :: b :: c :: rest =>
      let n := (a * 65536 + b * 256 + c)%N in
      sextet (n / 262144) +:+ sextet (n / 4096) +:+ sextet (n / 64) +:+ sextet n
      +:+ encode rest
  end.

Definition to_base64 (s : string) : string :=
  encode (map N_of_ascii (String.list_ascii_of_string s)).

Definition default_message (c : ZodIssueCode) : string :=
  match c with
  | invalid_type expected received =>
      if String.eqb received "undefined" then "Required"
      else "Expected " +:+ expected +:+ ", received " +:+ received
  | too_small n => "String must contain at least " +:+ pretty n +:+ " character(s)"
  | too_big n => "String must contain at most " +:+ pretty n +:+ " character(s)"
  | invalid_enum_value options received =>
      "Invalid enum value. Expected " +:+ joinValues options
      +:+ ", received '" +:+ received +:+ "'"
  end.

Definition render_issues (issues : list ZodIssue) : string :=
  stringify
    (JArr (map (fun i => JObj [("path", JArr (map JStr (path i)));
                               ("message", JStr (default_message (code i)))]) issues)).

Definition pad (width : nat) (n : Z) : string :=
  let digits := pretty n in
  String.string_of_list_ascii (replicate (width - String.length digits) "0"%char)
  +:+ digits.

(** The proleptic Gregorian date of a day number counted from 1970-01-01. *)
Definition civil (days : Z) : Z * Z * Z :=
  let z := days + 719468 in
  let era := z / 146097 in
  let doe := z - era * 146097 in
  let yoe := (doe - doe / 1460 + doe / 36524 - doe / 146096) / 365 in
  let doy := doe - (365 * yoe + yoe / 4 - yoe / 100) in
  let mp := (5 * doy + 2) / 153 in
  let d := doy - (153 * mp + 2) / 5 + 1 in
  let m := if mp <? 10 then mp + 3 else mp - 9 in
  let y := yoe + era * 400 + (if m <=? 2 then 1 else 0) in
  (y, m, d).

Definition iso8601 (ms : Z) : string :=
  let '(y, m, d) := civil (ms / 86400000) in
  let r := ms mod 86400000 in
  pad 4 y +:+ "-" +:+ pad 2 m +:+ "-" +:+ pad 2 d +:+ "T"
  +:+ pad 2 (r / 3600000) +:+ ":" +:+ pad 2 (r / 60000 mod 60) +:+ ":"
  +:+ pad 2 (r / 1000 mod 60) +:+ "." +:+ pad 3 (r mod 1000) +:+ "Z".

(** The request of the scenario of the specification. *)
Definition scenario : json :=
  JObj [("targetAudience", JStr "Busy moms aged 25 40 yrs");
        ("goal", JStr "Increase signups fast");
        ("uniqueSellingPoint", JStr "Only app with live coaching");
        ("contextDescription",
         JStr "We help moms build healthy routines in 10 minutes a day with proven plans.");
        ("brandVoice", JStr "Friendly");
        ("keyEmotion", JStr "Trust");
        ("adFormat", JStr "Single Image");
        ("industry", JStr "Health");
        ("preferredCTA", JStr "Sign Up");
        ("visualDirection", JStr "Lifestyle")].

(** The same with a goal of four characters and an unknown brand voice. *)
Definition scenario_invalid : json :=
  JObj [("targetAudience", JStr "Busy moms aged 25 40 yrs");
        ("goal", JStr "Grow");
        ("uniqueSellingPoint", JStr "Only app with live coaching");
        ("contextDescription",
         JStr "We help moms build healthy routines in 10 minutes a day with proven plans.");
        ("brandVoice", JStr "Casual");
        ("keyEmotion", JStr "Trust");
        ("adFormat", JStr "Single Image");
        ("industry", JStr "Health");
        ("preferredCTA", JStr "Sign Up");
        ("visualDirection", JStr "Lifestyle")].

Definition inspection : json :=
  JObj [("headline", JStr "Healthy routines in ten minutes");
        ("body", JStr "Join thousands of busy moms who coach live with us every day.");
        ("cta", JStr "Sign Up");
        ("offerDescription", JStr "Seven days free, cancel any time");
        ("adType", JStr "facebook");
        ("industry", JStr "Health")].

Definition ads_reply : json :=
  JObj [("ads", JArr [JObj [("type", JStr "Single Image");
                            ("headline", JStr "Ten minutes a day");
                            ("primary_text", JStr "Live coaching for busy moms.");
                            ("cta", JStr "Sign Up");
                            ("visual_suggestion", JStr "A mom stretching at home")]])].

Definition reply_without_ads : json :=
  JObj [("variations", JArr [])].

Definition analysis_reply : json :=
  JObj [("grade", JStr "B");
        ("headlineGrade", JStr "A");
        ("summary", JStr "Clear offer, weak urgency");
        ("suggestions", JArr [JStr "Add a deadline"]);
        ("attentionScore", JNum 7)].

Definition reply_without_grade : json :=
  JObj [("suggestions", JArr [JStr "Add a deadline"])].

Definition documents : list json :=
  [scenario; scenario_invalid; inspection; ads_reply; reply_without_ads;
   analysis_reply; reply_without_grade].

Definition read_back (s : string) : option json :=
  List.find (fun j => String.eqb (stringify j) s) documents.

#[export] Instance platform : Platform := {|
  JSON_parse := read_back;
  JSON_stringify := stringify;
  base64 := to_base64;
  errorMap := default_message;
  zodErrorMessage := render_issues;
  toISOString := iso8601;
  captureStack := fun msg => "Error: " +:+ msg +:+ " at POST (route.ts)"
|}.

Definition post (j : json) : Request :=
  {| x_forwarded_for := Some "203.0.113.7, 10.0.0.1"; text := stringify j |}.

Definition garbled : Request :=
  {| x_forwarded_for := Some "203.0.113.7, 10.0.0.1"; text := "{targetAudience: " |}.

(** An invocation at [t] milliseconds in production, the store up, the
    provider answering with [reply]. *)
Definition at_ (t : Z) (reply : ProviderReply) : Env :=
  {| now := t; NODE_ENV := "production"; limit_rejects := None;
     get_rejects := None; set_rejects := None; completion := reply |}.

Definition answers (j : json) : ProviderReply :=
  ProviderReturns (Some (stringify j)) (Some 412).

Definition timeout : ProviderReply :=
  ProviderRejects {| name := "APIConnectionTimeoutError"; message := "Request timed out.";
                     stack := "APIConnectionTimeoutError: Request timed out." |}.

Definition store_down : Rejection :=
  RejectError {| name := "UpstashError"; message := "fetch failed";
                 stack := "UpstashError: fetch failed" |}.

Definition empty : World := {| windows := ∅; entries := ∅; trace := [] |}.

Definition client : string := "203.0.113.7".

(** The scenario of the specification: the same client posts the same
    generation request four times within a day.  The provider answers the
    first; it would time out on the others.  In between the client has an ad
    inspected. *)
Definition visit1 : Response * World :=
  POST Generate (at_ 1000 (answers ads_reply)) (post scenario) empty.

Definition elsewhere : Response * World :=
  POST Inspect (at_ 1500 (answers analysis_reply)) (post inspection) visit1.2.

Definition visit2 : Response * World :=
  POST Generate (at_ 2000 timeout) (post scenario) elsewhere.2.

Definition visit3 : Response * World :=
  POST Generate (at_ 3000 timeout) (post scenario) visit2.2.

Definition visit4 : Response * World :=
  POST Generate (at_ 4000 timeout) (post scenario) visit3.2.

(** The inspection request, posted again an hour later. *)
Definition inspected_again : Response * World :=
  POST Inspect (at_ 3601500 timeout) (post inspection) elsewhere.2.

End Fixture.

(** ** Vocabulary for the further properties *)

(** The properties of [data] that a shape names, in the order of the shape. *)
Definition project (shape : list (string * ZodType)) (data : list (string * json))
  : list (string * json) :=
  flat_map (fun '(key, _) => opt_prop key (obj_get key data)) shape.

Definition names_field (shape : list (string * ZodType)) (f : string) : bool :=
  existsb (String.eqb f) (map fst shape).

(** [s.startsWith(p)] *)
Fixpoint starts_with (p s : string) : bool :=
  match p with
  | EmptyString => true
  | String a p' =>
      match s with
      | EmptyString => false
      | String b s' => Ascii.eqb a b && starts_with p' s'
      end
  end.




(** What the handlers report when the provider's call fails or its completion
    has no content. *)
Definition provider_failure (e : Endpoint) (reply : ProviderReply) : option string :=
  match reply with
  | ProviderRejects err =>
      Some (match e with
            | Generate => "OpenAI request failed: "
            | Inspect => "Analysis failed: "
            end +:+ message err)
  | ProviderReturns content _ =>
      if no_content content then Some "Empty response from OpenAI" else None
  end.

Section Served.
Context `{Platform}.


End Served.

(** ** The diagnostic routes

    [src/app/api/debug/route.ts] and [app/api/check-env/route.ts]. *)

Record ProcessEnv : Type := {
  OPENAI_API_KEY : option string;
  UPSTASH_REDIS_REST_URL : option string;
  UPSTASH_REDIS_REST_TOKEN : option string
}.

(** [!!process.env.NAME], and the variable as a condition: unset and the empty
    string are falsy. *)
Definition is_set (v : option string) : bool :=
  match v with
  | Some s => negb (String.eqb s EmptyString)
  | None => false
  end.

(** [Response.json(body)]: the status is 200. *)
Definition GET_debug (penv : ProcessEnv) : Response :=
  NextResponse_json
    (JObj [("env", JObj [("openai", JBool (is_set (OPENAI_API_KEY penv)));
                         ("redis", JBool (is_set (UPSTASH_REDIS_REST_URL penv)))]);
           ("routes", JObj [("generator", JStr "/api/generate-ad");
                            ("inspector", JStr "/api/inspect-ad")]);
           ("status", JStr "healthy")])
    200.

(** The two labels begin with a check mark and a cross, characters outside
    the strings of this development; [mark] stands for them. *)
Definition check_env_label (mark : bool -> string) (v : option string) : string :=
  if is_set v then mark true +:+ " Loaded" else mark false +:+ " Missing".

Definition GET_check_env (mark : bool -> string) (penv : ProcessEnv) : Response :=
  NextResponse_json
    (JObj [("OPENAI_API_KEY", JStr (check_env_label mark (OPENAI_API_KEY penv)));
           ("REDIS_URL", JStr (check_env_label mark (UPSTASH_REDIS_REST_URL penv)));
           ("REDIS_TOKEN", JStr (check_env_label mark (UPSTASH_REDIS_REST_TOKEN penv)))])
    200.

(** ** The page

    The component [Home] and the form helper that follow the inspection route
    in [src/app/api/inspect-ad/route.ts]: the state of the page, its event
    handlers, and the requests they send to the two routes.  A handler runs
    from the event to the end of its [finally] block without another event
    in between (the submit button is disabled while a request is under way);
    scrolling to the results is left out. *)

(** What the browser and the network do during one [fetch]. *)
Record Browser : Type := {
  forwarded_for : option string;       (* the [x-forwarded-for] the request arrives with *)
  fetch_rejects : option Rejection;    (* the request does not reach the route *)
  SyntaxError_message : string;        (* of a [response.json()] that fails *)
  TypeError_message : string           (* of a property read on [null] *)
}.

(** Client code: the server's store as state, exceptions. *)
Definition Script (A : Type) : Type := World -> (Thrown + A) * World.

Definition ret {A} (a : A) : Script A := fun w => (inr a, w).
Definition raise {A} (t : Thrown) : Script A := fun w => (inl t, w).

Definition and_then {A B} (m : Script A) (k : A -> Script B) : Script B :=
  fun w =>
    match m w with
    | (inr a, w') => k a w'
    | (inl t, w') => (inl t, w')
    end.

Declare Scope script_scope.
Delimit Scope script_scope with script.
Notation "x <- m ;; k" := (and_then m (fun x => k))
  (at level 100, m at next level, right associativity) : script_scope.
Notation "m ;; k" := (and_then m (fun _ => k))
  (at level 100, right associativity) : script_scope.

(** [try { m } catch (error) { h error }] *)
Definition attempt {A} (m : Script A) (h : Thrown -> Script A) : Script A :=
  fun w =>
    match m w with
    | (inl t, w') => h t w'
    | other => other
    end.

(** [String(v)], the conversion [new Error(v)] applies to its message. *)
Fixpoint to_String (j : json) : string :=
  match j with
  | JNull => "null"
  | JBool true => "true"
  | JBool false => "false"
  | JNum n => pretty n
  | JStr s => s
  | JArr items =>
      join "," (map (fun i => match i with
                              | JNull => EmptyString
                              | _ => to_String i
                              end) items)
  | JObj _ => "[object Object]"
  end.

(** [v || fallback], as a message. *)
Definition or_message (v : option json) (fallback : string) : string :=
  match v with
  | Some j => if truthy j then to_String j else fallback
  | None => fallback
  end.

(** [{ ...o, k: v }] with [v] possibly [undefined], as [JSON.stringify] sees
    the object: an [undefined] property is left out. *)
Definition set_opt (k : string) (v : option json) (props : list (string * json))
  : list (string * json) :=
  match v with
  | Some j => obj_set k j props
  | None => List.filter (fun kv => negb (String.eqb k kv.1)) props
  end.

Inductive Tool : Type := generator | inspector.

Inductive Modal : Type := modal_generator | modal_inspector | modal_privacy.

Record Page : Type := {
  formData : list (string * json);
  adInput : list (string * json);
  adType : string;
  previousAnalysisInput : string;
  generatedAds : json;
  adAnalysis : json;
  loadingGen : bool;
  loadingInspect : bool;
  error : string;
  acceptedTermsGen : bool;
  acceptedTermsInspect : bool;
  activeModal : option Modal
}.

Definition setFormData (v : list (string * json)) (p : Page) : Page :=
  {| formData := v; adInput := adInput p; adType := adType p;
     previousAnalysisInput := previousAnalysisInput p; generatedAds := generatedAds p;
     adAnalysis := adAnalysis p; loadingGen := loadingGen p;
     loadingInspect := loadingInspect p; error := error p;
     acceptedTermsGen := acceptedTermsGen p;
     acceptedTermsInspect := acceptedTermsInspect p; activeModal := activeModal p |}.

Definition setAdInput (v : list (string * json)) (p : Page) : Page :=
  {| formData := formData p; adInput := v; adType := adType p;
     previousAnalysisInput := previousAnalysisInput p; generatedAds := generatedAds p;
     adAnalysis := adAnalysis p; loadingGen := loadingGen p;
     loadingInspect := loadingInspect p; error := error p;
     acceptedTermsGen := acceptedTermsGen p;
     acceptedTermsInspect := acceptedTermsInspect p; activeModal := activeModal p |}.

Definition setAdType (v : string) (p : Page) : Page :=
  {| formData := formData p; adInput := adInput p; adType := v;
     previousAnalysisInput := previousAnalysisInput p; generatedAds := generatedAds p;
     adAnalysis := adAnalysis p; loadingGen := loadingGen p;
     loadingInspect := loadingInspect p; error := error p;
     acceptedTermsGen := acceptedTermsGen p;
     acceptedTermsInspect := acceptedTermsInspect p; activeModal := activeModal p |}.

Definition setPreviousAnalysisInput (v : string) (p : Page) : Page :=
  {| formData := formData p; adInput := adInput p; adType := adType p;
     previousAnalysisInput := v; generatedAds := generatedAds p;
     adAnalysis := adAnalysis p; loadingGen := loadingGen p;
     loadingInspect := loadingInspect p; error := error p;
     acceptedTermsGen := acceptedTermsGen p;
     acceptedTermsInspect := acceptedTermsInspect p; activeModal := activeModal p |}.

Definition setGeneratedAds (v : json) (p : Page) : Page :=
  {| formData := formData p; adInput := adInput p; adType := adType p;
     previousAnalysisInput := previousAnalysisInput p; generatedAds := v;
     adAnalysis := adAnalysis p; loadingGen := loadingGen p;
     loadingInspect := loadingInspect p; error := error p;
     acceptedTermsGen := acceptedTermsGen p;
     acceptedTermsInspect := acceptedTermsInspect p; activeModal := activeModal p |}.

Definition setAdAnalysis (v : json) (p : Page) : Page :=
  {| formData := formData p; adInput := adInput p; adType := adType p;
     previousAnalysisInput := previousAnalysisInput p; generatedAds := generatedAds p;
     adAnalysis := v; loadingGen := loadingGen p;
     loadingInspect := loadingInspect p; error := error p;
     acceptedTermsGen := acceptedTermsGen p;
     acceptedTermsInspect := acceptedTermsInspect p; activeModal := activeModal p |}.

Definition setLoadingGen (v : bool) (p : Page) : Page :=
  {| formData := formData p; adInput := adInput p; adType := adType p;
     previousAnalysisInput := previousAnalysisInput p; generatedAds := generatedAds p;
     adAnalysis := adAnalysis p; loadingGen := v;
     loadingInspect := loadingInspect p; error := error p;
     acceptedTermsGen := acceptedTermsGen p;
     acceptedTermsInspect := acceptedTermsInspect p; activeModal := activeModal p |}.

Definition setLoadingInspect (v : bool) (p : Page) : Page :=
  {| formData := formData p; adInput := adInput p; adType := adType p;
     previousAnalysisInput := previousAnalysisInput p; generatedAds := generatedAds p;
     adAnalysis := adAnalysis p; loadingGen := loadingGen p;
     loadingInspect := v; error := error p;
     acceptedTermsGen := acceptedTermsGen p;
     acceptedTermsInspect := acceptedTermsInspect p; activeModal := activeModal p |}.

Definition setError (v : string) (p : Page) : Page :=
  {| formData := formData p; adInput := adInput p; adType := adType p;
     previousAnalysisInput := previousAnalysisInput p; generatedAds := generatedAds p;
     adAnalysis := adAnalysis p; loadingGen := loadingGen p;
     loadingInspect := loadingInspect p; error := v;
     acceptedTermsGen := acceptedTermsGen p;
     acceptedTermsInspect := acceptedTermsInspect p; activeModal := activeModal p |}.

Definition setAcceptedTermsGen (v : bool) (p : Page) : Page :=
  {| formData := formData p; adInput := adInput p; adType := adType p;
     previousAnalysisInput := previousAnalysisInput p; generatedAds := generatedAds p;
     adAnalysis := adAnalysis p; loadingGen := loadingGen p;
     loadingInspect := loadingInspect p; error := error p;
     acceptedTermsGen := v;
     acceptedTermsInspect := acceptedTermsInspect p; activeModal := activeModal p |}.

Definition setAcceptedTermsInspect (v : bool) (p : Page) : Page :=
  {| formData := formData p; adInput := adInput p; adType := adType p;
     previousAnalysisInput := previousAnalysisInput p; generatedAds := generatedAds p;
     adAnalysis := adAnalysis p; loadingGen := loadingGen p;
     loadingInspect := loadingInspect p; error := error p;
     acceptedTermsGen := acceptedTermsGen p;
     acceptedTermsInspect := v; activeModal := activeModal p |}.

Definition setActiveModal (v : option Modal) (p : Page) : Page :=
  {| formData := formData p; adInput := adInput p; adType := adType p;
     previousAnalysisInput := previousAnalysisInput p; generatedAds := generatedAds p;
     adAnalysis := adAnalysis p; loadingGen := loadingGen p;
     loadingInspect := loadingInspect p; error := error p;
     acceptedTermsGen := acceptedTermsGen p;
     acceptedTermsInspect := acceptedTermsInspect p; activeModal := v |}.

(** The initial state, [useState(...)]. *)
Definition Home_initial : Page :=
  {| formData := [("targetAudience", JStr EmptyString);
                  ("goal", JStr EmptyString);
                  ("uniqueSellingPoint", JStr EmptyString);
                  ("contextDescription", JStr EmptyString);
                  ("brandVoice", JStr "Professional");
                  ("keyEmotion", JStr "FOMO");
                  ("competitors", JStr EmptyString);
                  ("adFormat", JStr "Single Image");
                  ("industry", JStr "General");
                  ("preferredCTA", JStr "Shop Now");
                  ("visualDirection", JStr "Lifestyle")];
     adInput := [("headline", JStr EmptyString);
                 ("body", JStr EmptyString);
                 ("cta", JStr EmptyString);
                 ("offerDescription", JStr EmptyString);
                 ("websiteOrBrand", JStr EmptyString)];
     adType := "facebook";
     previousAnalysisInput := EmptyString;
     generatedAds := JArr [];
     adAnalysis := JNull;
     loadingGen := false;
     loadingInspect := false;
     error := EmptyString;
     acceptedTermsGen := false;
     acceptedTermsInspect := false;
     activeModal := None |}.

(** The options of the select boxes. *)
Definition brandVoices : list string :=
  ["Professional"; "Friendly"; "Witty"; "Urgent"; "Inspirational"].
Definition keyEmotions : list string :=
  ["FOMO"; "Trust"; "Excitement"; "Curiosity"; "Anger/Solve Pain"].
Definition industries : list string :=
  ["General"; "Health"; "Finance"; "E-commerce"; "SaaS"; "Real Estate"; "Other"].
Definition adTypes : list string :=
  ["facebook"; "instagram"; "google-search"; "google-display"].

(** [setFormData({ ...formData, [e.target.name]: e.target.value })] *)
Definition handleAdGenChange (name value : string) (p : Page) : Page :=
  setFormData (obj_set name (JStr value) (formData p)) p.

(** [setAdInput({ ...adInput, [e.target.name]: e.target.value })] *)
Definition handleAdInspectChange (name value : string) (p : Page) : Page :=
  setAdInput (obj_set name (JStr value) (adInput p)) p.

(** The [onChange] of a terms checkbox. *)
Definition toggleTerms (tool : Tool) (p : Page) : Page :=
  match tool with
  | generator => setAcceptedTermsGen (negb (acceptedTermsGen p)) p
  | inspector => setAcceptedTermsInspect (negb (acceptedTermsInspect p)) p
  end.

Section Client.
Context `{Platform}.

(** [fetch(url, { method: "POST", body })]: the route of the URL runs on the
    body, unless the request is lost. *)
Definition fetch (b : Browser) (env : Env) (e : Endpoint) (body : string) : Script Response :=
  fun w =>
    match fetch_rejects b with
    | Some r => (inl (thrown_of r), w)
    | None =>
        let '(response, w') :=
          POST e env {| x_forwarded_for := forwarded_for b; text := body |} w in
        (inr response, w')
    end.

(** [response.text()]: the serialized payload. *)
Definition response_text (r : Response) : string := JSON_stringify (payload r).

(** [response.json()] *)
Definition response_json (b : Browser) (r : Response) : Script json :=
  match JSON_parse (response_text r) with
  | Some data => ret data
  | None =>
      raise (ThrownError {| name := "SyntaxError"; message := SyntaxError_message b;
                            stack := captureStack (SyntaxError_message b) |})
  end.

(** [data.k], which throws on [null]. *)
Definition read (b : Browser) (data : json) (k : string) : Script (option json) :=
  if is_null data
  then raise (ThrownError {| name := "TypeError"; message := TypeError_message b;
                             stack := captureStack (TypeError_message b) |})
  else ret (json_get k data).

(** [console.error(label, ...)] *)
Definition console_error (label : string) : Script unit :=
  fun w => (inr tt, log (EvConsole "error" label) w).

(** [error instanceof Error ? error.message : fallback] *)
Definition shown (t : Thrown) (fallback : string) : string :=
  from_option message fallback (as_Error t).

(** The [try] block of [handleAdGenSubmit]: the ads to show. *)
Definition request_ads (b : Browser) (env : Env) (p : Page) : Script json :=
  (response <- fetch b env Generate (JSON_stringify (JObj (formData p))) ;;
   data <- response_json b response ;;
   ads <- read b data "ads" ;;
   if truthy_opt ads
   then ret (default JNull ads)
   else raise (new_Error (or_message (json_get "error" data) "No ads generated")))%script.

Definition handleAdGenSubmit (b : Browser) (env : Env) (p : Page) (w : World)
  : Page * World :=
  if negb (acceptedTermsGen p)
  then (setError "Please accept the generator terms" p, w)
  else
    let p := setError EmptyString (setGeneratedAds (JArr []) (setLoadingGen true p)) in
    match request_ads b env p w with
    | (inr ads, w') => (setLoadingGen false (setGeneratedAds ads p), w')
    | (inl t, w') =>
        (setLoadingGen false (setError (shown t "Failed to generate ads") p), w')
    end.

(** [JSON.stringify({ ...adInput, adType })] *)
Definition currentInput (p : Page) : string :=
  JSON_stringify (JObj (obj_set "adType" (JStr (adType p)) (adInput p))).

(** The [try] block of [handleAdInspectSubmit]: the analysis to show. *)
Definition request_analysis (b : Browser) (env : Env) (p : Page) : Script json :=
  (response <- fetch b env Inspect
                 (JSON_stringify
                    (JObj (set_opt "industry" (obj_get "industry" (formData p))
                             (obj_set "adType" (JStr (adType p)) (adInput p))))) ;;
   data <- response_json b response ;;
   analysis <- read b data "analysis" ;;
   if truthy_opt analysis
   then ret (default JNull analysis)
   else raise (new_Error (or_message (json_get "error" data) "No analysis generated")))%script.

Definition handleAdInspectSubmit (b : Browser) (env : Env) (p : Page) (w : World)
  : Page * World :=
  if negb (acceptedTermsInspect p)
  then (setError "Please accept the inspector terms" p, w)
  else if String.eqb (currentInput p) (previousAnalysisInput p)
  then (setError "Please modify some fields to get a new analysis" p, w)
  else
    let input := currentInput p in
    let p := setError EmptyString (setAdAnalysis JNull (setLoadingInspect true p)) in
    match request_analysis b env p w with
    | (inr analysis, w') =>
        (setLoadingInspect false
           (setPreviousAnalysisInput input (setAdAnalysis analysis p)), w')
    | (inl t, w') =>
        (setLoadingInspect false (setError (shown t "Failed to analyze ad") p), w')
    end.

(** [components/AdGeneratorForm.tsx]: its two setters are stubs that throw. *)
Definition setAds (ads : option json) : Script unit :=
  raise (new_Error "Function not implemented.").

Definition setError_stub (msg : option string) : Script unit :=
  raise (new_Error "Function not implemented.").

(** [res.ok] *)
Definition ok (r : Response) : bool := (200 <=? status r) && (status r <=? 299).

(** [error.message] of a caught value. *)
Definition message_read (t : Thrown) : option string := message <$> as_Error t.

Definition handleSubmit (b : Browser) (env : Env) (formData : json) : Script unit :=
  attempt
    (res <- fetch b env Generate (JSON_stringify formData) ;;
     (if negb (ok res)
      then raise (new_Error (if String.eqb (response_text res) EmptyString
                             then "Request failed" else response_text res))
      else ret tt) ;;
     data <- response_json b res ;;
     ads <- read b data "ads" ;;
     setAds ads)%script
    (fun error =>
       console_error "Fetch error:" ;;
       setError_stub (message_read error))%script.

End Client.

(** What an event on the page is. *)
Inductive Action : Type :=
| GenChange (name value : string)       (* an input or select of the generator form *)
| InspectChange (name value : string)   (* an input of the inspector form *)
| SelectAdType (value : string)
| ToggleTerms (tool : Tool)
| OpenModal (m : Modal)
| CloseModal
| SubmitGen (b : Browser) (env : Env)
| SubmitInspect (b : Browser) (env : Env).

(** The controls of the two forms: the text inputs, which yield any text, and
    the select boxes, which yield one of their options. *)
Definition gen_inputs : list string :=
  ["targetAudience"; "goal"; "uniqueSellingPoint"; "contextDescription"].

Definition gen_selects : list (string * list string) :=
  [("brandVoice", brandVoices); ("keyEmotion", keyEmotions); ("industry", industries)].

Definition inspect_inputs : list string :=
  ["headline"; "body"; "cta"; "offerDescription"; "websiteOrBrand"].

Definition offered (a : Action) : Prop :=
  match a with
  | GenChange name value =>
      In name gen_inputs \/ exists options, In (name, options) gen_selects /\ In value options
  | InspectChange name _ => In name inspect_inputs
  | SelectAdType value => In value adTypes
  | _ => True
  end.

Section Events.
Context `{Platform}.

Definition act (a : Action) (s : Page * World) : Page * World :=
  match a with
  | GenChange name value => (handleAdGenChange name value s.1, s.2)
  | InspectChange name value => (handleAdInspectChange name value s.1, s.2)
  | SelectAdType value => (setAdType value s.1, s.2)
  | ToggleTerms tool => (toggleTerms tool s.1, s.2)
  | OpenModal m => (setActiveModal (Some m) s.1, s.2)
  | CloseModal => (setActiveModal None s.1, s.2)
  | SubmitGen b env => handleAdGenSubmit b env s.1 s.2
  | SubmitInspect b env => handleAdInspectSubmit b env s.1 s.2
  end.

(** The states a visit reaches from the initial page. *)
Inductive visited (w0 : World) : Page * World -> Prop :=
| visit_start : visited w0 (Home_initial, w0)
| visit_act a s : visited w0 s -> offered a -> visited w0 (act a s).

End Events.

(** ** Vocabulary for the properties of the page *)

Section Submission.
Context `{Platform}.

(** The submit handler of the form that posts to an endpoint, and what it
    posts. *)
Definition submit (e : Endpoint) : Browser -> Env -> Page -> World -> Page * World :=
  match e with
  | Generate => handleAdGenSubmit
  | Inspect => handleAdInspectSubmit
  end.

Definition posted_object (e : Endpoint) (p : Page) : list (string * json) :=
  match e with
  | Generate => formData p
  | Inspect =>
      set_opt "industry" (obj_get "industry" (formData p))
        (obj_set "adType" (JStr (adType p)) (adInput p))
  end.

Definition posted (e : Endpoint) (b : Browser) (p : Page) : Request :=
  {| x_forwarded_for := forwarded_for b;
     text := JSON_stringify (JObj (posted_object e p)) |}.

(** The handler gets as far as its request. *)
Definition sends (e : Endpoint) (p : Page) : bool :=
  match e with
  | Generate => acceptedTermsGen p
  | Inspect =>
      acceptedTermsInspect p && negb (String.eqb (currentInput p) (previousAnalysisInput p))
  end.

End Submission.

(** The result the page shows for an endpoint, and the state without one. *)
Definition result (e : Endpoint) (p : Page) : json :=
  match e with
  | Generate => generatedAds p
  | Inspect => adAnalysis p
  end.

Definition no_result (e : Endpoint) : json :=
  match e with
  | Generate => JArr []
  | Inspect => JNull
  end.

Definition fallback (e : Endpoint) : string :=
  match e with
  | Generate => "No ads generated"
  | Inspect => "No analysis generated"
  end.

(** The fields of an endpoint's body that come from a text input. *)
Definition typed (e : Endpoint) : list string :=
  match e with
  | Generate => gen_inputs
  | Inspect => inspect_inputs
  end.


Definition is_text (j : option json) : Prop := exists s, j = Some (JStr s).

Definition among (options : list string) (j : option json) : Prop :=
  exists s, j = Some (JStr s) /\ In s options.

(** The forms hold text under every input, an option under every select, and
    their initial values where they have no control. *)
Definition forms_ok (p : Page) : Prop :=
  Forall (fun f => is_text (obj_get f (formData p))) gen_inputs /\
  Forall (fun '(f, options) => among options (obj_get f (formData p)))
    (gen_selects ++ [("competitors", [EmptyString]); ("adFormat", ["Single Image"]);
                     ("preferredCTA", ["Shop Now"]); ("visualDirection", ["Lifestyle"])]) /\
  Forall (fun f => is_text (obj_get f (adInput p))) inspect_inputs /\
  obj_get "adType" (adInput p) = None /\
  obj_get "industry" (adInput p) = None /\
  In (adType p) adTypes.

(** ** A platform for the page

    The platform of [Fixture] with a [JSON.parse] that reads any document
    [Fixture.stringify] writes (integers, strings with escaped quotes and
    backslashes, arrays, objects), with white space between the tokens. *)

Module Wire.

Definition is_blank (c : ascii) : bool :=
  let n := nat_of_ascii c in
  ((n =? 32) || (n =? 9) || (n =? 10) || (n =? 13))%nat.

Fixpoint skip (s : string) : string :=
  match s with
  | EmptyString => EmptyString
  | String c rest => if is_blank c then skip rest else s
  end.

(** The rest of [s] after the literal [p]. *)
Fixpoint strip (p s : string) : option string :=
  match p with
  | EmptyString => Some s
  | String a p' =>
      match s with
      | EmptyString => None
      | String b s' => if Ascii.eqb a b then strip p' s' else None
      end
  end.

(** The contents of a string literal, after its opening quote. *)
Fixpoint read_string (s : string) : option (string * string) :=
  match s with
  | EmptyString => None
  | String c rest =>
      if (nat_of_ascii c =? 34)%nat then Some (EmptyString, rest)
      else if (nat_of_ascii c =? 92)%nat then
        match rest with
        | EmptyString => None
        | String d rest' =>
            if ((nat_of_ascii d =? 34) || (nat_of_ascii d =? 92) || (nat_of_ascii d =? 47))%nat
            then match read_string rest' with
                 | Some (t, r) => Some (String d t, r)
                 | None => None
                 end
            else None
        end
      else match read_string rest with
           | Some (t, r) => Some (String c t, r)
           | None => None
           end
  end.

Definition digit (c : ascii) : option Z :=
  let n := nat_of_ascii c in
  if ((48 <=? n) && (n <=? 57))%nat then Some (Z.of_nat n - 48) else None.

(** The digits at the head of [s], read onto [acc]; [None] when there is none. *)
Fixpoint read_digits (acc : option Z) (s : string) : option Z * string :=
  match s with
  | EmptyString => (acc, s)
  | String c rest =>
      match digit c with
      | Some d => read_digits (Some (10 * default 0 acc + d)) rest
      | None => (acc, s)
      end
  end.

Definition read_number (s : string) : option (json * string) :=
  match strip "-" s with
  | Some rest =>
      match read_digits None rest with
      | (Some n, r) => Some (JNum (- n), r)
      | (None, _) => None
      end
  | None =>
      match read_digits None s with
      | (Some n, r) => Some (JNum n, r)
      | (None, _) => None
      end
  end.

(** The elements of an array after its first, up to the closing bracket. *)
Fixpoint read_elements (fuel : nat) (read : string -> option (json * string)) (s : string)
  : option (list json * string) :=
  match fuel with
  | O => None
  | S fuel' =>
      match skip s with
      | String c rest =>
          if Ascii.eqb c "]"%char then Some ([], rest)
          else if Ascii.eqb c ","%char then
            match read rest with
            | Some (v, r) =>
                match read_elements fuel' read r with
                | Some (vs, r') => Some (v :: vs, r')
                | None => None
                end
            | None => None
            end
          else None
      | EmptyString => None
      end
  end.

Definition read_member (read : string -> option (json * string)) (s : string)
  : option ((string * json) * string) :=
  match skip s with
  | String q rest =>
      if (nat_of_ascii q =? 34)%nat then
        match read_string rest with
        | Some (k, r) =>
            match strip ":" (skip r) with
            | Some r' =>
                match read r' with
                | Some (v, r'') => Some ((k, v), r'')
                | None => None
                end
            | None => None
            end
        | None => None
        end
      else None
  | EmptyString => None
  end.

(** The members of an object after its first, up to the closing brace. *)
Fixpoint read_members (fuel : nat) (read : string -> option (json * string)) (s : string)
  : option (list (string * json) * string) :=
  match fuel with
  | O => None
  | S fuel' =>
      match skip s with
      | String c rest =>
          if Ascii.eqb c "}"%char then Some ([], rest)
          else if Ascii.eqb c ","%char then
            match read_member read rest with
            | Some (m, r) =>
                match read_members fuel' read r with
                | Some (ms, r') => Some (m :: ms, r')
                | None => None
                end
            | None => None
            end
          else None
      | EmptyString => None
      end
  end.

Fixpoint read_value (fuel : nat) (s : string) : option (json * string) :=
  match fuel with
  | O => None
  | S fuel' =>
      match skip s with
      | EmptyString => None
      | String c rest as s' =>
          if (nat_of_ascii c =? 34)%nat then
            match read_string rest with
            | Some (t, r) => Some (JStr t, r)
            | None => None
            end
          else if Ascii.eqb c "["%char then
            match strip "]" (skip rest) with
            | Some r => Some (JArr [], r)
            | None =>
                match read_value fuel' rest with
                | Some (v, r) =>
                    match read_elements fuel' (read_value fuel') r with
                    | Some (vs, r') => Some (JArr (v :: vs), r')
                    | None => None
                    end
                | None => None
                end
            end
          else if Ascii.eqb c "{"%char then
            match strip "}" (skip rest) with
            | Some r => Some (JObj [], r)
            | None =>
                match read_member (read_value fuel') rest with
                | Some (m, r) =>
                    match read_members fuel' (read_value fuel') r with
                    | Some (ms, r') => Some (JObj (m :: ms), r')
                    | None => None
                    end
                | None => None
                end
            end
          else
            match strip "null" s' with
            | Some r => Some (JNull, r)
            | None =>
                match strip "true" s' with
                | Some r => Some (JBool true, r)
                | None =>
                    match strip "false" s' with
                    | Some r => Some (JBool false, r)
                    | None => read_number s'
                    end
                end
            end
      end
  end.

Definition parse (s : string) : option json :=
  match read_value (S (String.length s)) s with
  | Some (v, rest) => if String.eqb (skip rest) EmptyString then Some v else None
  | None => None
  end.

#[export] Instance platform : Platform := {|
  JSON_parse := parse;
  JSON_stringify := Fixture.stringify;
  base64 := Fixture.to_base64;
  errorMap := Fixture.default_message;
  zodErrorMessage := Fixture.render_issues;
  toISOString := Fixture.iso8601;
  captureStack := fun msg => "Error: " +:+ msg +:+ " at POST (route.ts)"
|}.

(** The store is down when the limiter calls it. *)
Definition outage : Env :=
  {| now := 1000; NODE_ENV := "production"; limit_rejects := Some Fixture.store_down;
     get_rejects := None; set_rejects := None;
     completion := Fixture.answers Fixture.ads_reply |}.

(** The provider's host refuses the connection. *)
Definition refused : ProviderReply :=
  ProviderRejects {| name := "APIConnectionError";
                     message := "connect ECONNREFUSED 10.0.0.5:443";
                     stack := "APIConnectionError: connect ECONNREFUSED 10.0.0.5:443" |}.

(** A request whose body is JSON, an empty array. *)
Definition bare_list : Request :=
  {| x_forwarded_for := Some "203.0.113.7, 10.0.0.1"; text := "[]" |}.

(** A browser behind a proxy that forwards the client's address. *)
Definition browser : Browser :=
  {| forwarded_for := Some "203.0.113.7, 10.0.0.1"; fetch_rejects := None;
     SyntaxError_message := "Unexpected end of JSON input";
     TypeError_message := "Cannot read properties of null" |}.

Definition offline : Browser :=
  {| forwarded_for := None;
     fetch_rejects := Some (RejectError {| name := "TypeError"; message := "Failed to fetch";
                                           stack := "TypeError: Failed to fetch" |});
     SyntaxError_message := "Unexpected end of JSON input";
     TypeError_message := "Cannot read properties of null" |}.

(** The visitor accepts the terms and fills in the generator form as in the
    scenario of the specification. *)
Definition filled : Page :=
  handleAdGenChange "industry" "Health"
    (handleAdGenChange "keyEmotion" "Trust"
       (handleAdGenChange "brandVoice" "Friendly"
          (handleAdGenChange "contextDescription"
             "We help moms build healthy routines in 10 minutes a day with proven plans."
             (handleAdGenChange "uniqueSellingPoint" "Only app with live coaching"
                (handleAdGenChange "goal" "Increase signups fast"
                   (handleAdGenChange "targetAudience" "Busy moms aged 25 40 yrs"
                      (toggleTerms generator Home_initial))))))).

(** The visitor accepts the inspector's terms and fills in an ad. *)
Definition drafted : Page :=
  handleAdInspectChange "offerDescription" "Seven days free, cancel any time"
    (handleAdInspectChange "cta" "Sign Up"
       (handleAdInspectChange "body"
          "Join thousands of busy moms who coach live with us every day."
          (handleAdInspectChange "headline" "Healthy routines in ten minutes"
             (toggleTerms inspector Home_initial)))).

End Wire.

(** * Properties *)

#[local] Arguments slidingWindow : simpl never.
#[local] Arguments safeParse : simpl never.
#[local] Arguments cacheKey : simpl never.
#[local] Arguments String.append : simpl never.
#[local] Arguments client_ip : simpl never.
#[local] Arguments identifier : simpl never.
#[local] Arguments ratelimit : simpl never.
#[local] Arguments limiter_key : simpl never.
#[local] Arguments truthy : simpl never.
#[local] Arguments is_null : simpl never.
#[local] Arguments no_content : simpl never.
#[local] Arguments json_get : simpl never.
#[local] Arguments obj_set : simpl never.
#[local] Arguments spread : simpl never.
#[local] Arguments recent : simpl never.

Ltac unfold_handler :=
  unfold POST, POST_generate, POST_inspect, generate_body, inspect_body,
    generate_catch, inspect_catch, run, catch, bind, ratelimit_limit, kv_get,
    kv_set, openai_create, request_json, parse_content, member, parse, emit,
    when_, pure, return_, throw, new_Error, native_error, thrown_of in *.

(** Case analysis on what the evaluation of the handler is stuck on: the
    scrutinee at the head of the outermost [match]. *)
Ltac head_is_match f :=
  lazymatch f with
  | match _ with _ => _ end => idtac
  | ?g _ => head_is_match g
  end.

Ltac find_stuck t :=
  lazymatch t with
  | match ?s with _ => _ end => find_stuck s
  | ?f ?a =>
      match constr:(Set) with
      | _ => let _ := match constr:(Set) with _ => head_is_match f end in find_stuck f
      | _ => let r := find_stuck a in lazymatch r with a => fail | _ => r end
      | _ => t
      end
  | _ => t
  end.

Ltac step_handler :=
  match goal with
  | p : (_ * _)%type |- _ => destruct p
  | |- context [match ?s with _ => _ end] =>
      let x := find_stuck s in destruct x eqn:?
  end.

Ltac split_handler := repeat (cbn; step_handler).

(** The same, rewriting with the facts at hand first. *)
Ltac split_using tac := repeat (cbn; first [progress tac | step_handler]).

(** Name the results of the invocations in the goal, so that each handler is
    run once: the goal becomes [POST ... = R -> ...]. *)
Ltac name_runs :=
  repeat match goal with
  | |- context [POST ?e ?env ?r ?w] => remember (POST e env r w) eqn:?
  end;
  repeat match goal with
  | H : _ = POST _ _ _ _ |- _ => symmetry in H; revert H
  end.

(** Name the limiter's decision in an [allowed] hypothesis. *)
Ltac use_allowed Hadm Hup Hd :=
  let Hok := fresh "Hok" in
  destruct Hadm as [Hup Hok]; unfold decision in Hok;
  match type of Hok with
  | context [slidingWindow ?a ?b ?c ?d] =>
      destruct (slidingWindow a b c d) as [[? ?] ?] eqn:Hd
  end;
  cbn in Hok; subst.

(** ** The limiter *)

Section Limiter.
Variable rl : Ratelimit.

Lemma recent_in now log t : In t (recent rl now log) <-> In t log /\ now - window rl < t.
Proof.
  unfold recent. rewrite filter_In. rewrite Z.ltb_lt. reflexivity.
Qed.

Lemma recent_expired now log :
  Forall (fun t => t <= now - window rl) log -> recent rl now log = [].
Proof.
  unfold recent. induction 1 as [|t log Ht _ IH]; cbn; [reflexivity|].
  destruct (Z.ltb_spec (now - window rl) t); [lia | exact IH].
Qed.

Lemma recent_all now log :
  Forall (fun t => now - window rl < t) log -> recent rl now log = log.
Proof.
  unfold recent. induction 1 as [|t log Ht _ IH]; cbn; [reflexivity|].
  destruct (Z.ltb_spec (now - window rl) t); [by rewrite IH | lia].
Qed.

Lemma last_cases (l : list Z) (d : Z) : l = [] /\ List.last l d = d \/ In (List.last l d) l.
Proof.
  induction l as [|a [|b l] IH]; [left; done | right; left; done |].
  right. destruct IH as [[? _] | IH]; [done | right; exact IH].
Qed.

(** The reset instant lies strictly after the request, admitted or not. *)
Lemma slidingWindow_reset id now ws :
  0 < window rl -> now < (slidingWindow rl id now ws).1.2.
Proof.
  intros Hpos. unfold slidingWindow.
  set (seen := recent rl now _).
  assert (now - window rl < List.last seen now) as Hlast.
  { destruct (last_cases seen now) as [[_ ->] | Hin]; [lia|].
    apply recent_in in Hin. lia. }
  destruct (_ <? _)%nat; cbn; lia.
Qed.

Lemma slidingWindow_frame id now ws k :
  k <> limiter_key rl id -> (slidingWindow rl id now ws).2 !! k = ws !! k.
Proof.
  intros Hk. unfold slidingWindow.
  destruct (_ <? _)%nat; cbn; [by rewrite lookup_insert_ne | reflexivity].
Qed.

End Limiter.

Lemma window_ratelimit e : window (ratelimit e) = 86400000.
Proof. by destruct e. Qed.

Lemma tokens_ratelimit e : tokens (ratelimit e) = 3%nat.
Proof. by destruct e. Qed.

Lemma client_key_inj e1 ip1 e2 ip2 :
  client_key e1 ip1 = client_key e2 ip2 -> e1 = e2 /\ ip1 = ip2.
Proof.
  destruct e1, e2;
    cbv [client_key limiter_key ratelimit identifier new_Ratelimit prefix String.append];
    intros [= ->]; done.
Qed.

Lemma decision_unfold e env request w :
  let seen := recent (ratelimit e) (now env) (history e (client_ip request) w) in
  decision e env request w =
    if (length seen <? 3)%nat
    then ((true, List.last seen (now env) + 86400000),
          <[client_key e (client_ip request) := now env :: seen]> (windows w))
    else ((false, List.last seen (now env) + 86400000), windows w).
Proof.
  unfold decision, slidingWindow, history, client_key.
  rewrite window_ratelimit, tokens_ratelimit. reflexivity.
Qed.

Lemma decision_success e env request w :
  (decision e env request w).1.1 = (used e (client_ip request) (now env) w <? 3)%nat.
Proof.
  rewrite decision_unfold. unfold used. by destruct (_ <? _)%nat.
Qed.

Lemma decision_reset e env request w : now env < (decision e env request w).1.2.
Proof.
  apply slidingWindow_reset. by rewrite window_ratelimit.
Qed.

(** ** What every invocation does *)

Section Invocation.
Context `{Platform}.

(** The limiter runs first and alone decides between 429 and the rest; its
    windows are what the invocation leaves in the store. *)
Lemma POST_admission e env request w :
  match limit_rejects env with
  | Some _ =>
      status (POST e env request w).1 = 500 /\
      windows (POST e env request w).2 = windows w
  | None =>
      windows (POST e env request w).2 = (decision e env request w).2 /\
      if (decision e env request w).1.1
      then In (status (POST e env request w).1) [200; 400; 500]
      else (POST e env request w).1
           = limit_reached (limit_message e) (decision e env request w).1.2
  end.
Proof.
  unfold decision. name_runs.
  destruct e; unfold_handler; split_handler; intros [= <- <-]; cbn in *; try done; auto 6.
Qed.

(** Neither handler lets an exception escape. *)
Lemma POST_catches_all env request w :
  (forall t w', catch (generate_body env request (client_ip request)) generate_catch w
                <> (Throw t, w')) /\
  (forall t w', catch (inspect_body env request (client_ip request)) (inspect_catch env) w
                <> (Throw t, w')).
Proof.
  split; intros t w'; unfold_handler; split_handler; discriminate.
Qed.

Lemma history_after e env request w :
  limit_rejects env = None ->
  history e (client_ip request) (POST e env request w).2 =
    if (decision e env request w).1.1
    then now env :: recent (ratelimit e) (now env) (history e (client_ip request) w)
    else history e (client_ip request) w.
Proof.
  intros Hup. pose proof (POST_admission e env request w) as Hadm.
  rewrite Hup in Hadm. destruct Hadm as [Hws _].
  unfold history at 1. rewrite Hws, decision_unfold.
  destruct (_ <? _)%nat; cbn; [by rewrite lookup_insert_eq | reflexivity].
Qed.

(** A request under another key leaves the history of this one alone. *)
Lemma history_frame e ip e' env request w :
  (e', client_ip request) <> (e, ip) ->
  history e ip (POST e' env request w).2 = history e ip w.
Proof.
  intros Hne. pose proof (POST_admission e' env request w) as Hadm.
  unfold history. destruct (limit_rejects env).
  - destruct Hadm as [_ ->]. reflexivity.
  - destruct Hadm as [-> _]. unfold decision.
    rewrite slidingWindow_frame; [reflexivity|].
    intros Hk. apply client_key_inj in Hk as [-> ->]. by apply Hne.
Qed.

Lemma other_traffic_history e ip w w' :
  other_traffic e ip w w' -> history e ip w' = history e ip w.
Proof.
  induction 1 as [|w e' env request w' Hne _ IH]; [reflexivity|].
  rewrite IH. by apply history_frame.
Qed.

Lemma allowed_status e env request w :
  allowed e env request w -> In (status (POST e env request w).1) [200; 400; 500].
Proof.
  intros [Hup Hok]. pose proof (POST_admission e env request w) as Hadm.
  rewrite Hup, Hok in Hadm. tauto.
Qed.

Lemma rejected_response e env request w :
  limit_rejects env = None -> (decision e env request w).1.1 = false ->
  (POST e env request w).1
  = limit_reached (limit_message e) (decision e env request w).1.2.
Proof.
  intros Hup Hno. pose proof (POST_admission e env request w) as Hadm.
  rewrite Hup, Hno in Hadm. tauto.
Qed.

End Invocation.

(** ** Quotas *)

Section Quota.
Context `{Platform}.

(** C2.  A client whose earlier requests to an endpoint have all left the
    24-hour window makes four requests to it within 24 hours, whatever their
    bodies, while the store serves any requests of other clients and any
    requests to the other endpoint in between.  The first three are not
    answered with 429; the fourth is, and the [reset] it reports is an
    instant strictly after that request.  A request to the other endpoint
    never changes what the limiter holds for this one. *)
Theorem quota_three_per_window e ip env1 env2 env3 env4 r1 r2 r3 r4 w0 w1 w2 w3 :
  client_ip r1 = ip -> client_ip r2 = ip -> client_ip r3 = ip -> client_ip r4 = ip ->
  limit_rejects env1 = None -> limit_rejects env2 = None ->
  limit_rejects env3 = None -> limit_rejects env4 = None ->
  Forall (fun t => t <= now env1 - 86400000) (history e ip w0) ->
  now env1 <= now env2 -> now env2 <= now env3 -> now env3 <= now env4 ->
  now env4 < now env1 + 86400000 ->
  other_traffic e ip (POST e env1 r1 w0).2 w1 ->
  other_traffic e ip (POST e env2 r2 w1).2 w2 ->
  other_traffic e ip (POST e env3 r3 w2).2 w3 ->
  status (POST e env1 r1 w0).1 <> 429 /\
  status (POST e env2 r2 w1).1 <> 429 /\
  status (POST e env3 r3 w2).1 <> 429 /\
  status (POST e env4 r4 w3).1 = 429 /\
  (exists reset,
      json_get "reset" (payload (POST e env4 r4 w3).1) = Some (JStr (toISOString reset)) /\
      now env4 < reset) /\
  (forall e' env request w, e' <> e ->
      history e ip (POST e' env request w).2 = history e ip w).
Proof.
  intros Hip1 Hip2 Hip3 Hip4 Hup1 Hup2 Hup3 Hup4 Hfresh H12 H23 H34 H41 Ho1 Ho2 Ho3.
  pose proof (window_ratelimit e) as HW.
  (* the first request finds an empty window *)
  assert ((decision e env1 r1 w0).1.1 = true) as Hd1.
  { rewrite decision_success, Hip1. unfold used.
    rewrite recent_expired; [reflexivity | by rewrite HW]. }
  assert (history e ip w1 = [now env1]) as Hh1.
  { rewrite (other_traffic_history _ _ _ _ Ho1), <- Hip1 at 1.
    rewrite history_after, Hd1, Hip1 by done.
    rewrite recent_expired; [reflexivity | by rewrite HW]. }
  (* the second finds one request in its window *)
  assert (recent (ratelimit e) (now env2) [now env1] = [now env1]) as Hr2.
  { apply recent_all. rewrite HW. repeat constructor; lia. }
  assert ((decision e env2 r2 w1).1.1 = true) as Hd2.
  { rewrite decision_success, Hip2. unfold used. by rewrite Hh1, Hr2. }
  assert (history e ip w2 = [now env2; now env1]) as Hh2.
  { rewrite (other_traffic_history _ _ _ _ Ho2), <- Hip2 at 1.
    rewrite history_after, Hd2, Hip2 by done. by rewrite Hh1, Hr2. }
  (* the third finds two *)
  assert (recent (ratelimit e) (now env3) [now env2; now env1] = [now env2; now env1]) as Hr3.
  { apply recent_all. rewrite HW. repeat constructor; lia. }
  assert ((decision e env3 r3 w2).1.1 = true) as Hd3.
  { rewrite decision_success, Hip3. unfold used. by rewrite Hh2, Hr3. }
  assert (history e ip w3 = [now env3; now env2; now env1]) as Hh3.
  { rewrite (other_traffic_history _ _ _ _ Ho3), <- Hip3 at 1.
    rewrite history_after, Hd3, Hip3 by done. by rewrite Hh2, Hr3. }
  (* the fourth finds the quota used up *)
  assert ((decision e env4 r4 w3).1.1 = false) as Hd4.
  { rewrite decision_success, Hip4. unfold used. rewrite Hh3.
    rewrite recent_all; [reflexivity|]. rewrite HW. repeat constructor; lia. }
  assert (forall env r w, allowed e env r w -> status (POST e env r w).1 <> 429) as Hnot.
  { intros env r w Ha Hs. apply allowed_status in Ha. rewrite Hs in Ha.
    cbn in Ha. intuition discriminate. }
  repeat split; try (apply Hnot; by split).
  - by rewrite rejected_response.
  - rewrite rejected_response by done.
    eexists. split; [reflexivity | apply decision_reset].
  - intros e' env request w Hne. apply history_frame. congruence.
Qed.

End Quota.
(** ** Validation *)

Lemma string_in_false s values : ~ In s values -> string_in s values = false.
Proof.
  intros Hno. unfold string_in. apply not_true_is_false. intros Hex.
  apply existsb_exists in Hex as (v & Hin & Heq).
  apply String.eqb_eq in Heq as ->. by apply Hno.
Qed.

Lemma parse_type_offends t p input :
  offends t input -> exists i, In i (parse_type t p input).1 /\ path i = p.
Proof.
  induction 1 as [checks | values | checks j Hj | values j Hj
                 | checks n s Hin Hlen | checks n s Hin Hlen
                 | values s Hno | t j _ IH]; cbn.
  - eexists; split; [left; reflexivity|]; reflexivity.
  - eexists; split; [left; reflexivity|]; reflexivity.
  - destruct j; try (eexists; split; [left; reflexivity|]; reflexivity).
    by destruct (Hj s).
  - destruct j; try (eexists; split; [left; reflexivity|]; reflexivity).
    by destruct (Hj s).
  - exists (mkIssue (too_small n) p). split; [|reflexivity].
    apply in_flat_map. exists (Min n). split; [exact Hin|]. unfold run_check.
    destruct (Nat.ltb_spec (String.length s) n); [by left | lia].
  - exists (mkIssue (too_big n) p). split; [|reflexivity].
    apply in_flat_map. exists (Max n). split; [exact Hin|]. unfold run_check.
    destruct (Nat.ltb_spec n (String.length s)); [by left | lia].
  - rewrite string_in_false by done. cbn. eexists; split; [left; reflexivity|]; reflexivity.
  - exact IH.
Qed.

Lemma parse_shape_offends shape data f t :
  In (f, t) shape -> offends t (obj_get f data) ->
  exists i, In i (parse_shape shape data).1 /\ path i = [f].
Proof.
  intros Hin Hoff. induction shape as [|[key t'] shape IH]; [destruct Hin|].
  cbn. destruct (parse_type t' [key] (obj_get key data)) as [issues1 v] eqn:E1.
  destruct (parse_shape shape data) as [issues2 out] eqn:E2. cbn.
  destruct Hin as [[= -> ->] | Hin].
  - destruct (parse_type_offends t [f] _ Hoff) as (i & Hi & Hp).
    rewrite E1 in Hi. exists i. split; [apply in_or_app; by left | exact Hp].
  - destruct (IH Hin) as (i & Hi & Hp).
    exists i. split; [apply in_or_app; by right | exact Hp].
Qed.

Lemma safeParse_offends shape data f t :
  In (f, t) shape -> offends t (obj_get f data) ->
  exists issues i, safeParse shape (JObj data) = ParseError issues /\
                   In i issues /\ path i = [f].
Proof.
  intros Hin Hoff. destruct (parse_shape_offends shape data f t Hin Hoff) as (i & Hi & Hp).
  unfold safeParse. destruct (parse_shape shape data) as [[|i0 issues] out]; [destruct Hi|].
  by exists (i0 :: issues), i.
Qed.

Section Validation.
Context `{Platform}.

Lemma POST_invalid e env request w body issues :
  allowed e env request w ->
  JSON_parse (text request) = Some body ->
  safeParse (schema e) body = ParseError issues ->
  (POST e env request w).1 = validation_failed issues.
Proof.
  intros Hadm Hbody Hbad. use_allowed Hadm Hup Hd.
  destruct e; unfold_handler; cbn in Hbad;
    split_using ltac:(rewrite ?Hup, ?Hd, ?Hbody, ?Hbad); cbn in *; congruence.
Qed.

Lemma POST_unparseable e env request w :
  allowed e env request w ->
  JSON_parse (text request) = None ->
  (POST e env request w).1
  = NextResponse_json
      (JObj ([("error", JStr "Invalid JSON payload"); ("code", JStr "Error")]
             ++ match e with
                | Generate => []
                | Inspect =>
                    if String.eqb (NODE_ENV env) "development"
                    then [("stack", JStr (captureStack "Invalid JSON payload"))]
                    else []
                end))
      500.
Proof.
  intros Hadm Hbody. use_allowed Hadm Hup Hd.
  destruct e; unfold_handler;
    split_using ltac:(rewrite ?Hup, ?Hd, ?Hbody); cbn in *; congruence.
Qed.

(** C3, as amended.  An admitted request whose body parses to an object in
    which a field of the schema is missing though required, or holds a string
    outside its length bounds, or holds a string outside its enum, or holds no
    string, is answered with 400, and the [issues] of the answer hold an entry
    whose [path] is that field.  (A body that is JSON but no object has no
    field to name: see [non_object_body_names_no_field].) *)
Theorem offending_field_is_reported e env request w data f t :
  allowed e env request w ->
  JSON_parse (text request) = Some (JObj data) ->
  In (f, t) (schema e) ->
  offends t (obj_get f data) ->
  status (POST e env request w).1 = 400 /\
  exists issues entry,
    json_get "issues" (payload (POST e env request w).1) = Some (JArr issues) /\
    In entry issues /\
    json_get "path" entry = Some (JStr f).
Proof.
  intros Hadm Hbody Hin Hoff.
  destruct (safeParse_offends _ _ _ _ Hin Hoff) as (issues & i & Hbad & Hi & Hp).
  rewrite (POST_invalid _ _ _ _ _ _ Hadm Hbody Hbad).
  split; [reflexivity|].
  exists (map issue_json issues), (issue_json i).
  split; [reflexivity|]. split; [by apply in_map|].
  unfold issue_json. rewrite Hp. reflexivity.
Qed.

End Validation.

(** ** Where a request stops *)

Section Stops.
Context `{Platform}.


(** C4.  A request whose body fails validation, admitted or not, leaves the
    cache entries as they were, and none of the effects of its invocation is a
    cache read, a cache write or a call of the provider. *)
Theorem invalid_request_stops_at_validation e env request w body issues :
  JSON_parse (text request) = Some body ->
  safeParse (schema e) body = ParseError issues ->
  entries (POST e env request w).2 = entries w /\
  exists evs,
    trace (POST e env request w).2 = trace w ++ evs /\
    forallb (fun ev => negb (touches_cache_or_provider ev)) evs = true.
Proof.
  intros Hbody Hbad.
  destruct e; unfold_handler; cbn in Hbad;
    split_using ltac:(rewrite ?Hbody, ?Hbad); cbn;
    (split; [reflexivity|]); rewrite <- ?app_assoc; eexists; (split; [reflexivity|]);
    reflexivity.
Qed.

(** C10.  An admitted request whose body does not parse, or does not
    validate, is answered with 500 or 400 all the same; the limiter's check is
    the first effect of its invocation, the store holds the windows that
    check left, and the client has one more request in the current window
    than before. *)
Theorem invalid_request_consumes_quota e env request w :
  allowed e env request w ->
  (JSON_parse (text request) = None \/
   exists body issues, JSON_parse (text request) = Some body /\
                       safeParse (schema e) body = ParseError issues) ->
  status (POST e env request w).1
    = match JSON_parse (text request) with None => 500 | Some _ => 400 end /\
  windows (POST e env request w).2 = (decision e env request w).2 /\
  used e (client_ip request) (now env) (POST e env request w).2
    = S (used e (client_ip request) (now env) w) /\
  exists evs,
    trace (POST e env request w).2
    = trace w ++ EvLimit (client_key e (client_ip request)) :: evs.
Proof.
  intros Hadm Hinvalid. split; [|split; [|split]].
  - destruct Hinvalid as [Hnone | (body & issues & Hbody & Hbad)].
    + rewrite (POST_unparseable _ _ _ _ Hadm Hnone), Hnone. reflexivity.
    + rewrite (POST_invalid _ _ _ _ _ _ Hadm Hbody Hbad), Hbody. reflexivity.
  - destruct Hadm as [Hup _]. pose proof (POST_admission e env request w) as Hws.
    rewrite Hup in Hws. apply Hws.
  - destruct Hadm as [Hup Hok]. unfold used.
    rewrite history_after, Hok by done.
    pose proof (window_ratelimit e) as HW.
    rewrite recent_all; [reflexivity|].
    constructor; [lia|].
    apply List.Forall_forall. intros x Hx. by apply recent_in in Hx as [_ ?].
  - name_runs. destruct e; unfold_handler; split_handler; intros [= <- <-]; cbn;
      rewrite <- ?app_assoc; eexists; reflexivity.
Qed.

End Stops.

(** ** The provider's answer *)

Section Provider.
Context `{Platform}.

(** C5.  When an admitted, valid request misses the cache and the provider's
    content does not parse, or parses to a value without [ads] (generation),
    without [grade] or without [suggestions] (inspection), the answer is a 500
    that names the malformed data, the cache entries stay as they were and no
    effect of the invocation is a cache write. *)
Theorem malformed_answer_is_not_cached e env request w validated content total_tokens :
  allowed e env request w ->
  valid_body e request validated ->
  truthy (cached_value env (cacheKey e validated) w) = false ->
  completion env = ProviderReturns (Some content) total_tokens ->
  malformed e content ->
  status (POST e env request w).1 = 500 /\
  json_get "error" (payload (POST e env request w).1)
    = Some (JStr (if String.eqb content EmptyString
                  then "Empty response from OpenAI" else malformed_message e)) /\
  json_get "code" (payload (POST e env request w).1) = Some (JStr "Error") /\
  entries (POST e env request w).2 = entries w /\
  exists evs,
    trace (POST e env request w).2 = trace w ++ evs /\
    forallb (fun ev => negb (is_cache_write ev)) evs = true.
Proof.
  intros Hadm (body & Hbody & Hvalid) Hmiss Hreply Hmal.
  use_allowed Hadm Hup Hd. unfold cached_value in Hmiss. revert Hmiss. name_runs.
  destruct e; cbn in Hvalid, Hmal;
    destruct Hmal as [Hnone | (j & Hj & Hlacks)];
    try destruct Hlacks as [Hlacks | Hlacks];
    unfold_handler;
    split_using ltac:(rewrite ?Hup, ?Hd, ?Hbody, ?Hvalid, ?Hreply, ?Hnone, ?Hj, ?Hlacks);
    intros [= <- <-] Hmiss; cbn in *; try congruence;
    repeat (split; [try reflexivity; unfold no_content in *; cbn in *; congruence|]).
  all: rewrite <- ?app_assoc; eexists; (split; reflexivity).
Qed.

End Provider.

(** ** Failures *)

Section Failures.
Context `{Platform}.

(** The error a handler's [catch] block receives from a failure that ends in
    a 500, [None] for a thrown value that is no [Error]: the store's own
    rejection when the limiter's call fails; otherwise an [Error] that the
    handler made, with a fixed text, or with a fixed prefix and the
    provider's own message behind it. *)
Ltac report_thrown :=
  lazymatch goal with
  | |- exists thrown, JObj (("error", JStr ?m) :: _) = _ /\ _ =>
      first
        [ exists None; split; [reflexivity|]; reflexivity
        | match goal with
          | err : ErrorObject |- _ => exists (Some err); split; [reflexivity|]; reflexivity
          end
        | exists (Some {| name := "Error"; message := m; stack := captureStack m |});
          split; [reflexivity|]; exists m; split; [reflexivity|];
          first [ left; reflexivity
                | right; left; eexists; split; reflexivity
                | right; right; left; reflexivity
                | right; right; right; reflexivity ] ]
  end.

(** C9, as amended.  A 500 answer is an object with the two properties
    [error] and [code], and nothing else; only the inspection endpoint in
    development adds a third, [stack], and outside development no 500 answer
    has a [stack].  [error] and [code] are the message and the name of the
    error that was thrown, not a generic text and code: when the limiter's
    call fails they are the store's own message and error name (a default
    text and [UNKNOWN_ERROR] if what was thrown is no [Error]); otherwise
    [code] is [Error] and [error] is one of three fixed texts or, when the
    provider's call fails, a fixed prefix followed by the provider's own
    message. *)
Theorem server_error_has_message_and_code e env request w :
  status (POST e env request w).1 = 500 ->
  (exists thrown : option ErrorObject,
      payload (POST e env request w).1
      = JObj ([("error", JStr (from_option message
                                 match e with
                                 | Generate => "Generation failed"
                                 | Inspect => "Analysis failed"
                                 end thrown));
               ("code", JStr (from_option name "UNKNOWN_ERROR" thrown))]
              ++ match e with
                 | Generate => []
                 | Inspect =>
                     if String.eqb (NODE_ENV env) "development"
                     then opt_prop "stack" (JStr <$> (stack <$> thrown))
                     else []
                 end) /\
      match limit_rejects env with
      | Some (RejectError err) => thrown = Some err
      | Some RejectOther => thrown = None
      | None =>
          exists msg,
            thrown = Some {| name := "Error"; message := msg; stack := captureStack msg |} /\
            (msg = "Invalid JSON payload" \/
             (exists err,
                 completion env = ProviderRejects err /\
                 msg = match e with
                       | Generate => "OpenAI request failed: "
                       | Inspect => "Analysis failed: "
                       end +:+ message err) \/
             msg = "Empty response from OpenAI" \/
             msg = malformed_message e)
      end) /\
  (NODE_ENV env <> "development" ->
   json_get "stack" (payload (POST e env request w).1) = None).
Proof.
  name_runs.
  destruct e; unfold_handler; split_handler;
    intros [= <- <-] Hstatus; cbn in *; try discriminate;
    repeat match goal with
           | Hdev : String.eqb _ _ = true |- _ => apply String.eqb_eq in Hdev
           end;
    (split; [report_thrown | first [reflexivity | intros Hprod; congruence]]).
Qed.

(** A rejected [kv.get] gives the answer and the effects of an invocation
    that finds the cache empty; a rejected [kv.set] gives the answer of an
    invocation whose write goes through. *)
Lemma cache_rejections_compare e env request w rejection :
  ((POST e (with_get_rejects (Some rejection) env) request w).1
   = (POST e (with_get_rejects None env) request (set_entries ∅ w)).1 /\
   trace (POST e (with_get_rejects (Some rejection) env) request w).2
   = trace (POST e (with_get_rejects None env) request (set_entries ∅ w)).2) /\
  (POST e (with_set_rejects (Some rejection) env) request w).1
  = (POST e (with_set_rejects None env) request w).1.
Proof.
  split; [split|]; name_runs;
    destruct e; unfold_handler; split_using ltac:(rewrite ?lookup_empty);
    intros [= <- <-] [= <- <-]; cbn in *; congruence.
Qed.

End Failures.

(** ** Cache or compute *)

Section CacheOrCompute.
Context `{Platform}.

Lemma has_required_not_null e j : has_required e j -> is_null j = false.
Proof.
  destruct e, j; cbn; try reflexivity; [intros Hno | intros [Hno _]];
    discriminate Hno.
Qed.

(** A miss that the provider answers well: the answer is returned, marked as a
    miss, and stored under the key unless the write is rejected. *)
Lemma POST_miss e env request w validated content total_tokens j :
  allowed e env request w ->
  valid_body e request validated ->
  truthy (cached_value env (cacheKey e validated) w) = false ->
  completion env = ProviderReturns (Some content) total_tokens ->
  content <> EmptyString ->
  JSON_parse content = Some j ->
  has_required e j ->
  status (POST e env request w).1 = 200 /\
  json_get (content_key e) (payload (POST e env request w).1) = payload_content e j /\
  cache_mark (POST e env request w).1 = Some (JStr "miss") /\
  entries (POST e env request w).2
  = match set_rejects env with
    | None => <[cacheKey e validated := (stored e j, now env + ttl e * 1000)]> (entries w)
    | Some _ => entries w
    end.
Proof.
  intros Hadm (body & Hbody & Hvalid) Hmiss Hreply Hcontent Hj Hreq.
  pose proof (has_required_not_null _ _ Hreq) as Hnull.
  assert (no_content (Some content) = false) as Hsome by (by apply String.eqb_neq).
  use_allowed Hadm Hup Hd. unfold cached_value in Hmiss. revert Hmiss. name_runs.
  destruct e; cbn in Hvalid, Hreq; [|destruct Hreq as [Hreq Hsugg]];
    unfold_handler;
    split_using ltac:(rewrite ?Hup, ?Hd, ?Hbody, ?Hvalid, ?Hreply, ?Hsome, ?Hj, ?Hnull,
                              ?Hreq, ?Hsugg);
    intros [= <- <-] Hmiss; cbn in *; try congruence;
    repeat split; try reflexivity.
  all: destruct (json_get "ads" j); [reflexivity | discriminate].
Qed.

(** A hit: the stored value is the answer, nothing is stored and the
    provider is not called. *)
Lemma POST_hit e env request w validated :
  allowed e env request w ->
  valid_body e request validated ->
  truthy (cached_value env (cacheKey e validated) w) = true ->
  (POST e env request w).1
  = NextResponse_json
      (match e with
       | Generate => cached_value env (cacheKey e validated) w
       | Inspect =>
           JObj (obj_set "meta" (JObj [("cache", JStr "hit")])
                   (spread (cached_value env (cacheKey e validated) w)))
       end)
      200 /\
  entries (POST e env request w).2 = entries w /\
  exists evs,
    trace (POST e env request w).2 = trace w ++ evs /\
    forallb (fun ev => negb (is_provider_call ev)) evs = true.
Proof.
  intros Hadm (body & Hbody & Hvalid) Hhit.
  use_allowed Hadm Hup Hd. unfold cached_value in *. revert Hhit. name_runs.
  destruct e; cbn in Hvalid; unfold_handler;
    split_using ltac:(rewrite ?Hup, ?Hd, ?Hbody, ?Hvalid);
    intros [= <- <-] Hhit; cbn in *; try congruence;
    (split; [reflexivity|]); (split; [reflexivity|]);
    rewrite <- ?app_assoc; eexists; (split; reflexivity).
Qed.

(** An admitted, valid request that finds nothing in the cache calls the
    provider with the validated value, once. *)
Lemma POST_miss_calls_provider e env request w validated :
  allowed e env request w ->
  valid_body e request validated ->
  truthy (cached_value env (cacheKey e validated) w) = false ->
  exists evs,
    trace (POST e env request w).2 = trace w ++ evs /\
    List.filter is_provider_call evs = [EvProvider "gpt-4" validated].
Proof.
  intros Hadm (body & Hbody & Hvalid) Hmiss.
  use_allowed Hadm Hup Hd. unfold cached_value in Hmiss. revert Hmiss. name_runs.
  destruct e; cbn in Hvalid; unfold_handler;
    split_using ltac:(rewrite ?Hup, ?Hd, ?Hbody, ?Hvalid);
    intros [= <- <-] Hmiss; cbn in *; try congruence;
    rewrite <- ?app_assoc; eexists; (split; reflexivity).
Qed.

(** A write that the store rejects after a compute is logged as a warning,
    and that is the last effect of the invocation. *)
Lemma POST_rejected_write_is_logged e env request w validated content total_tokens j r :
  allowed e env request w ->
  valid_body e request validated ->
  truthy (cached_value env (cacheKey e validated) w) = false ->
  completion env = ProviderReturns (Some content) total_tokens ->
  content <> EmptyString ->
  JSON_parse content = Some j ->
  has_required e j ->
  set_rejects env = Some r ->
  exists evs,
    trace (POST e env request w).2 = trace w ++ evs /\
    last evs = Some (EvConsole "warn" "Cache set failed:").
Proof.
  intros Hadm (body & Hbody & Hvalid) Hmiss Hreply Hcontent Hj Hreq Hset.
  pose proof (has_required_not_null _ _ Hreq) as Hnull.
  assert (no_content (Some content) = false) as Hsome by (by apply String.eqb_neq).
  use_allowed Hadm Hup Hd. unfold cached_value in Hmiss. revert Hmiss. name_runs.
  destruct e; cbn in Hvalid, Hreq; [|destruct Hreq as [Hreq Hsugg]];
    unfold_handler;
    split_using ltac:(rewrite ?Hup, ?Hd, ?Hbody, ?Hvalid, ?Hreply, ?Hsome, ?Hj, ?Hnull,
                              ?Hreq, ?Hsugg, ?Hset);
    intros [= <- <-] Hmiss; cbn in *; try congruence;
    rewrite <- ?app_assoc; eexists; (split; reflexivity).
Qed.

(** C6.  Cache failures do not fail the request.  Take an admitted, valid
    request whose provider answers well.  When the read of the cache is
    rejected, the request is handled as a miss whatever the cache holds: the
    provider is called, once, and its answer is returned with 200 and marked
    as a miss, as if the cache were empty.  When the write after a compute is
    rejected, the computed answer is returned with 200 all the same, the very
    response of an invocation whose write goes through; the entries stay as
    they were and the failure is logged as a warning. *)
Theorem cache_failures_are_best_effort
    e env request w rejection validated content total_tokens j :
  allowed e env request w ->
  valid_body e request validated ->
  completion env = ProviderReturns (Some content) total_tokens ->
  content <> EmptyString ->
  JSON_parse content = Some j ->
  has_required e j ->
  (status (POST e (with_get_rejects (Some rejection) env) request w).1 = 200 /\
   json_get (content_key e)
     (payload (POST e (with_get_rejects (Some rejection) env) request w).1)
   = payload_content e j /\
   cache_mark (POST e (with_get_rejects (Some rejection) env) request w).1
   = Some (JStr "miss") /\
   (exists evs,
       trace (POST e (with_get_rejects (Some rejection) env) request w).2 = trace w ++ evs /\
       List.filter is_provider_call evs = [EvProvider "gpt-4" validated]) /\
   (POST e (with_get_rejects (Some rejection) env) request w).1
   = (POST e (with_get_rejects None env) request (set_entries ∅ w)).1) /\
  (truthy (cached_value env (cacheKey e validated) w) = false ->
   status (POST e (with_set_rejects (Some rejection) env) request w).1 = 200 /\
   json_get (content_key e)
     (payload (POST e (with_set_rejects (Some rejection) env) request w).1)
   = payload_content e j /\
   (POST e (with_set_rejects (Some rejection) env) request w).1
   = (POST e (with_set_rejects None env) request w).1 /\
   entries (POST e (with_set_rejects (Some rejection) env) request w).2 = entries w /\
   exists evs,
     trace (POST e (with_set_rejects (Some rejection) env) request w).2 = trace w ++ evs /\
     last evs = Some (EvConsole "warn" "Cache set failed:")).
Proof.
  intros Hadm Hvalid Hreply Hcontent Hj Hreq.
  destruct (cache_rejections_compare e env request w rejection) as [[Hsame _] Hwrite].
  split.
  - assert (allowed e (with_get_rejects (Some rejection) env) request w) as Hadm'
        by exact Hadm.
    assert (truthy (cached_value (with_get_rejects (Some rejection) env)
                      (cacheKey e validated) w) = false) as Hmiss by reflexivity.
    destruct (POST_miss e (with_get_rejects (Some rejection) env) request w validated
                content total_tokens j Hadm' Hvalid Hmiss Hreply Hcontent Hj Hreq)
      as (Hst & Hget & Hmark & _).
    repeat split; try done.
    exact (POST_miss_calls_provider _ _ _ _ _ Hadm' Hvalid Hmiss).
  - intros Hmiss.
    assert (allowed e (with_set_rejects (Some rejection) env) request w) as Hadm'
        by exact Hadm.
    destruct (POST_miss e (with_set_rejects (Some rejection) env) request w validated
                content total_tokens j Hadm' Hvalid Hmiss Hreply Hcontent Hj Hreq)
      as (Hst & Hget & _ & Hentries).
    repeat split; try done.
    exact (POST_rejected_write_is_logged _ _ _ _ _ _ _ _ rejection
             Hadm' Hvalid Hmiss Hreply Hcontent Hj Hreq eq_refl).
Qed.

End CacheOrCompute.

Section Keys.
Context `{Platform}.

Lemma cacheKey_namespaces v1 v2 : cacheKey Generate v1 <> cacheKey Inspect v2.
Proof. cbv [cacheKey String.append]. discriminate. Qed.

(** An admitted, valid request reads the cache under the key of its validated
    value, and writes under no other. *)
Lemma POST_cache_keys e env request w validated :
  allowed e env request w ->
  valid_body e request validated ->
  exists evs,
    trace (POST e env request w).2 = trace w ++ evs /\
    hd_error (cache_keys evs) = Some (cacheKey e validated) /\
    Forall (eq (cacheKey e validated)) (cache_keys evs).
Proof.
  intros Hadm (body & Hbody & Hvalid).
  use_allowed Hadm Hup Hd. name_runs.
  destruct e; cbn in Hvalid; unfold_handler;
    split_using ltac:(rewrite ?Hup, ?Hd, ?Hbody, ?Hvalid);
    intros [= <- <-]; cbn in *; try congruence;
    rewrite <- ?app_assoc; eexists; (split; [reflexivity|]); cbn;
    (split; [reflexivity | repeat constructor]).
Qed.

(** C7.  Two admitted requests to an endpoint whose bodies validate to the
    same value, whatever else differs (the raw bodies, the clients, the
    instants, the store), read the cache under one and the same key, the key
    of that value, and write under no other; and no key of the generation
    endpoint is a key of the inspection endpoint. *)
Theorem cache_key_is_deterministic_and_namespaced e env1 env2 r1 r2 w1 w2 validated :
  allowed e env1 r1 w1 ->
  allowed e env2 r2 w2 ->
  valid_body e r1 validated ->
  valid_body e r2 validated ->
  (exists evs1 evs2,
      trace (POST e env1 r1 w1).2 = trace w1 ++ evs1 /\
      trace (POST e env2 r2 w2).2 = trace w2 ++ evs2 /\
      hd_error (cache_keys evs1) = Some (cacheKey e validated) /\
      hd_error (cache_keys evs2) = Some (cacheKey e validated) /\
      Forall (eq (cacheKey e validated)) (cache_keys evs1 ++ cache_keys evs2)) /\
  (forall v1 v2, cacheKey Generate v1 <> cacheKey Inspect v2).
Proof.
  intros Ha1 Ha2 Hv1 Hv2.
  destruct (POST_cache_keys _ _ _ _ _ Ha1 Hv1) as (evs1 & Ht1 & Hh1 & Hall1).
  destruct (POST_cache_keys _ _ _ _ _ Ha2 Hv2) as (evs2 & Ht2 & Hh2 & Hall2).
  split; [|apply cacheKey_namespaces].
  exists evs1, evs2. repeat split; try done. by apply Forall_app.
Qed.

(** C1.  Two requests with the same body text, both admitted and valid, the
    second within the time to live of what the first stored: the first
    misses, is answered by the provider and marked as a miss; the second is
    answered from the cache with the same payload and without a call of the
    provider.  The inspection endpoint marks the second as a hit; the
    generation endpoint returns the stored object as it is, without any
    [meta]. *)
Theorem second_call_is_served_from_cache e env1 env2 r1 r2 w validated content total_tokens j :
  text r2 = text r1 ->
  allowed e env1 r1 w ->
  allowed e env2 r2 (POST e env1 r1 w).2 ->
  valid_body e r1 validated ->
  truthy (cached_value env1 (cacheKey e validated) w) = false ->
  completion env1 = ProviderReturns (Some content) total_tokens ->
  content <> EmptyString ->
  JSON_parse content = Some j ->
  has_required e j ->
  set_rejects env1 = None ->
  get_rejects env2 = None ->
  now env2 < now env1 + ttl e * 1000 ->
  status (POST e env1 r1 w).1 = 200 /\
  cache_mark (POST e env1 r1 w).1 = Some (JStr "miss") /\
  status (POST e env2 r2 (POST e env1 r1 w).2).1 = 200 /\
  json_get (content_key e) (payload (POST e env2 r2 (POST e env1 r1 w).2).1)
    = json_get (content_key e) (payload (POST e env1 r1 w).1) /\
  (exists evs,
      trace (POST e env2 r2 (POST e env1 r1 w).2).2 = trace (POST e env1 r1 w).2 ++ evs /\
      forallb (fun ev => negb (is_provider_call ev)) evs = true) /\
  cache_mark (POST e env2 r2 (POST e env1 r1 w).2).1
    = match e with
      | Generate => None
      | Inspect => Some (JStr "hit")
      end.
Proof.
  intros Htext Ha1 Ha2 Hv1 Hmiss Hreply Hcontent Hj Hreq Hset Hget Httl.
  destruct (POST_miss _ _ _ _ _ _ _ _ Ha1 Hv1 Hmiss Hreply Hcontent Hj Hreq)
    as (Hs1 & Hc1 & Hm1 & He1).
  rewrite Hset in He1.
  assert (valid_body e r2 validated) as Hv2.
  { destruct Hv1 as (body & Hbody & Hvalid). exists body. by rewrite Htext. }
  assert (cached_value env2 (cacheKey e validated) (POST e env1 r1 w).2 = stored e j) as Hc.
  { unfold cached_value. rewrite Hget, He1, lookup_insert_eq.
    destruct (Z.ltb_spec (now env2) (now env1 + ttl e * 1000)); [reflexivity | lia]. }
  assert (truthy (stored e j) = true) as Htruthy by (by destruct e).
  destruct (POST_hit _ _ _ _ _ Ha2 Hv2) as (Hr2 & _ & Hevs); [by rewrite Hc|].
  rewrite Hc in Hr2. rewrite Hr2, Hc1.
  repeat split; try done.
  - destruct e; cbn in *; [|reflexivity].
    destruct (json_get "ads" j); [reflexivity | discriminate].
  - destruct e; cbn in *; [|reflexivity].
    destruct (json_get "ads" j); [reflexivity | discriminate].
Qed.

End Keys.

Section Unparseable.
Context `{Platform}.

(** C8, as amended.  An admitted request whose body is not JSON is answered
    with 500 and the message [Invalid JSON payload] under the error name
    [Error]: not the 400 of a schema violation, and without an [issues] array,
    hence with no field path. *)
Theorem unparseable_body_is_a_plain_500 e env request w :
  allowed e env request w ->
  JSON_parse (text request) = None ->
  status (POST e env request w).1 = 500 /\
  json_get "error" (payload (POST e env request w).1) = Some (JStr "Invalid JSON payload") /\
  json_get "code" (payload (POST e env request w).1) = Some (JStr "Error") /\
  json_get "issues" (payload (POST e env request w).1) = None /\
  ~ has_field_errors (POST e env request w).1 /\
  (forall issues, (POST e env request w).1 <> validation_failed issues).
Proof.
  intros Hadm Hnone. rewrite (POST_unparseable _ _ _ _ Hadm Hnone).
  assert (json_get "issues"
            (JObj ([("error", JStr "Invalid JSON payload"); ("code", JStr "Error")] ++
                   match e with
                   | Generate => []
                   | Inspect =>
                       if String.eqb (NODE_ENV env) "development"
                       then [("stack", JStr (captureStack "Invalid JSON payload"))]
                       else []
                   end)) = None) as Hno.
  { destruct e; [reflexivity|]. by destruct (String.eqb _ _). }
  repeat split; try done.
  intros (issues & Hissues & _). cbn [payload NextResponse_json] in Hissues. congruence.
Qed.

(** In development the inspection endpoint sends the stack along. *)
Lemma development_stack_is_sent env request w :
  NODE_ENV env = "development" ->
  allowed Inspect env request w ->
  JSON_parse (text request) = None ->
  json_get "stack" (payload (POST Inspect env request w).1)
  = Some (JStr (captureStack "Invalid JSON payload")).
Proof.
  intros Hdev Hadm Hnone. rewrite (POST_unparseable _ _ _ _ Hadm Hnone), Hdev.
  reflexivity.
Qed.

(** A body that is JSON but no object is a schema violation without a field:
    its one issue has the empty path. *)
Lemma non_object_body_has_no_field e env request w body :
  allowed e env request w ->
  JSON_parse (text request) = Some body ->
  (forall props, body <> JObj props) ->
  exists msg,
    (POST e env request w).1
    = NextResponse_json
        (JObj [("error", JStr "Validation failed");
               ("issues", JArr [JObj [("path", JStr EmptyString); ("message", JStr msg)]])])
        400.
Proof.
  intros Hadm Hbody Hobj.
  assert (safeParse (schema e) body
          = ParseError [mkIssue (invalid_type "object" (getParsedType (Some body))) []]) as Hbad.
  { destruct body; try reflexivity. by destruct (Hobj props). }
  rewrite (POST_invalid _ _ _ _ _ _ Hadm Hbody Hbad). eexists. reflexivity.
Qed.

(** Validation reads the body by field name only: the order of its
    properties and properties outside the schema do not change the result,
    so neither do they change the cache key. *)
Lemma safeParse_by_lookup shape data1 data2 :
  (forall f t, In (f, t) shape -> obj_get f data1 = obj_get f data2) ->
  safeParse shape (JObj data1) = safeParse shape (JObj data2).
Proof.
  intros Hsame. unfold safeParse.
  enough (parse_shape shape data1 = parse_shape shape data2) as -> by reflexivity.
  induction shape as [|[key t] shape IH]; [reflexivity|].
  cbn. rewrite (Hsame key t) by (by left). rewrite IH; [reflexivity|].
  intros f t' Hin. apply (Hsame f t'). by right.
Qed.

End Unparseable.

(** * The scenario, run *)

Section Examples.
Import Fixture.

(** The four submissions are answered 200, 200, 200 and 429; the first answer
    is marked as a miss, the two answers from the cache carry no mark. *)
Example scenario_four_submissions :
  map status [visit1.1; visit2.1; visit3.1; visit4.1] = [200; 200; 200; 429] /\
  map cache_mark [visit1.1; visit2.1; visit3.1]
    = [Some (JStr "miss"); None; None] /\
  payload visit2.1 = JObj (opt_prop "ads" (json_get "ads" ads_reply)) /\
  payload visit4.1
    = JObj [("error", JStr "Free limit reached!");
            ("reset", JStr "1970-01-02T00:00:01.000Z");
            ("upgradeUrl", JStr "/pricing")].
Proof. vm_compute. repeat split. Qed.

Example inspection_is_marked_as_hit :
  cache_mark elsewhere.1 = Some (JStr "miss") /\
  cache_mark inspected_again.1 = Some (JStr "hit") /\
  json_get "analysis" (payload inspected_again.1) = json_get "analysis" (payload elsewhere.1).
Proof. vm_compute. repeat split. Qed.

Lemma second_call_is_served_from_cache_witness :
  status (POST Generate (at_ 1000 (answers ads_reply)) (post scenario) empty).1 = 200 /\
  cache_mark (POST Generate (at_ 1000 (answers ads_reply)) (post scenario) empty).1
    = Some (JStr "miss") /\
  status (POST Generate (at_ 2000 timeout) (post scenario)
            (POST Generate (at_ 1000 (answers ads_reply)) (post scenario) empty).2).1 = 200 /\
  json_get (content_key Generate)
    (payload (POST Generate (at_ 2000 timeout) (post scenario)
                (POST Generate (at_ 1000 (answers ads_reply)) (post scenario) empty).2).1)
    = json_get (content_key Generate)
        (payload (POST Generate (at_ 1000 (answers ads_reply)) (post scenario) empty).1) /\
  (exists evs,
      trace (POST Generate (at_ 2000 timeout) (post scenario)
               (POST Generate (at_ 1000 (answers ads_reply)) (post scenario) empty).2).2
      = trace (POST Generate (at_ 1000 (answers ads_reply)) (post scenario) empty).2 ++ evs /\
      forallb (fun ev => negb (is_provider_call ev)) evs = true) /\
  cache_mark (POST Generate (at_ 2000 timeout) (post scenario)
                (POST Generate (at_ 1000 (answers ads_reply)) (post scenario) empty).2).1
    = None.
Proof.
  apply (second_call_is_served_from_cache Generate
           (at_ 1000 (answers ads_reply)) (at_ 2000 timeout) (post scenario) (post scenario)
           empty scenario (stringify ads_reply) (Some 412) ads_reply).
  - reflexivity.
  - split; vm_compute; reflexivity.
  - split; vm_compute; reflexivity.
  - exists scenario. split; vm_compute; reflexivity.
  - vm_compute. reflexivity.
  - reflexivity.
  - vm_compute. discriminate.
  - vm_compute. reflexivity.
  - vm_compute. reflexivity.
  - reflexivity.
  - reflexivity.
  - vm_compute. reflexivity.
Defined.

Lemma quota_three_per_window_witness :
  status (POST Generate (at_ 1000 (answers ads_reply)) (post scenario) empty).1 <> 429 /\
  status (POST Generate (at_ 2000 timeout) (post scenario) elsewhere.2).1 <> 429 /\
  status (POST Generate (at_ 3000 timeout) (post scenario) visit2.2).1 <> 429 /\
  status (POST Generate (at_ 4000 timeout) (post scenario) visit3.2).1 = 429 /\
  (exists reset,
      json_get "reset" (payload (POST Generate (at_ 4000 timeout) (post scenario) visit3.2).1)
      = Some (JStr (toISOString reset)) /\
      now (at_ 4000 timeout) < reset) /\
  (forall e' env request w, e' <> Generate ->
      history Generate client (POST e' env request w).2 = history Generate client w).
Proof.
  apply (quota_three_per_window Generate client
           (at_ 1000 (answers ads_reply)) (at_ 2000 timeout) (at_ 3000 timeout)
           (at_ 4000 timeout)
           (post scenario) (post scenario) (post scenario) (post scenario)
           empty elsewhere.2 visit2.2 visit3.2).
  1-8: vm_compute; reflexivity.
  - replace (history Generate client empty) with (@nil Z) by (vm_compute; reflexivity).
    constructor.
  - vm_compute. discriminate.
  - vm_compute. discriminate.
  - vm_compute. discriminate.
  - vm_compute. reflexivity.
  - apply (other_request Generate client _ Inspect
             (at_ 1500 (answers analysis_reply)) (post inspection)).
    + discriminate.
    + apply other_none.
  - apply other_none.
  - apply other_none.
Defined.

Lemma offending_field_is_reported_witness :
  status (POST Generate (at_ 1000 timeout) (post scenario_invalid) empty).1 = 400 /\
  exists issues entry,
    json_get "issues" (payload (POST Generate (at_ 1000 timeout) (post scenario_invalid) empty).1)
    = Some (JArr issues) /\
    In entry issues /\
    json_get "path" entry = Some (JStr "goal").
Proof.
  apply (offending_field_is_reported Generate (at_ 1000 timeout) (post scenario_invalid) empty
           (spread scenario_invalid) "goal" (z.max 100 (z.min 10 z.string_))).
  - split; vm_compute; reflexivity.
  - vm_compute. reflexivity.
  - vm_compute. right. left. reflexivity.
  - apply (too_short _ 10%nat).
    + vm_compute. left. reflexivity.
    + vm_compute. lia.
Defined.

Lemma invalid_request_stops_at_validation_witness :
  entries (POST Inspect (at_ 1000 timeout) (post scenario) empty).2 = entries empty /\
  exists evs,
    trace (POST Inspect (at_ 1000 timeout) (post scenario) empty).2 = trace empty ++ evs /\
    forallb (fun ev => negb (touches_cache_or_provider ev)) evs = true.
Proof.
  apply (invalid_request_stops_at_validation Inspect (at_ 1000 timeout) (post scenario) empty
           scenario
           (map (fun f => mkIssue (invalid_type f.2 "undefined") [f.1])
              [("headline", "string"); ("body", "string"); ("cta", "string");
               ("offerDescription", "string");
               ("adType", "'facebook' | 'instagram' | 'google-search' | 'google-display'")])).
  - vm_compute. reflexivity.
  - vm_compute. reflexivity.
Defined.

Lemma malformed_answer_is_not_cached_witness :
  status (POST Generate (at_ 1000 (answers reply_without_ads)) (post scenario) empty).1 = 500 /\
  json_get "error"
    (payload (POST Generate (at_ 1000 (answers reply_without_ads)) (post scenario) empty).1)
    = Some (JStr (if String.eqb (stringify reply_without_ads) EmptyString
                  then "Empty response from OpenAI" else malformed_message Generate)) /\
  json_get "code"
    (payload (POST Generate (at_ 1000 (answers reply_without_ads)) (post scenario) empty).1)
    = Some (JStr "Error") /\
  entries (POST Generate (at_ 1000 (answers reply_without_ads)) (post scenario) empty).2
    = entries empty /\
  exists evs,
    trace (POST Generate (at_ 1000 (answers reply_without_ads)) (post scenario) empty).2
    = trace empty ++ evs /\
    forallb (fun ev => negb (is_cache_write ev)) evs = true.
Proof.
  apply (malformed_answer_is_not_cached Generate (at_ 1000 (answers reply_without_ads))
           (post scenario) empty scenario (stringify reply_without_ads) (Some 412)).
  - split; vm_compute; reflexivity.
  - exists scenario. split; vm_compute; reflexivity.
  - vm_compute. reflexivity.
  - reflexivity.
  - right. exists reply_without_ads. split; vm_compute; reflexivity.
Defined.

Lemma cache_key_is_deterministic_and_namespaced_witness :
  (exists evs1 evs2,
      trace (POST Generate (at_ 1000 (answers ads_reply)) (post scenario) empty).2
      = trace empty ++ evs1 /\
      trace (POST Generate (at_ 3000 timeout) (post scenario) visit2.2).2
      = trace visit2.2 ++ evs2 /\
      hd_error (cache_keys evs1) = Some (cacheKey Generate scenario) /\
      hd_error (cache_keys evs2) = Some (cacheKey Generate scenario) /\
      Forall (eq (cacheKey Generate scenario)) (cache_keys evs1 ++ cache_keys evs2)) /\
  (forall v1 v2, cacheKey Generate v1 <> cacheKey Inspect v2).
Proof.
  apply (cache_key_is_deterministic_and_namespaced Generate
           (at_ 1000 (answers ads_reply)) (at_ 3000 timeout) (post scenario) (post scenario)
           empty visit2.2 scenario).
  - split; vm_compute; reflexivity.
  - split; vm_compute; reflexivity.
  - exists scenario. split; vm_compute; reflexivity.
  - exists scenario. split; vm_compute; reflexivity.
Defined.

(** C8, as stated, fails: the answer to a body that is not JSON has no
    [issues], so no field path. *)
Lemma unparseable_body_has_no_field_errors :
  allowed Generate (at_ 1000 timeout) garbled empty /\
  JSON_parse (text garbled) = None /\
  payload (POST Generate (at_ 1000 timeout) garbled empty).1
    = JObj [("error", JStr "Invalid JSON payload"); ("code", JStr "Error")] /\
  ~ has_field_errors (POST Generate (at_ 1000 timeout) garbled empty).1.
Proof.
  split; [split; vm_compute; reflexivity|].
  split; [vm_compute; reflexivity|].
  split; [vm_compute; reflexivity|].
  intros (issues & Hissues & _). vm_compute in Hissues. discriminate.
Qed.

Lemma unparseable_body_is_a_plain_500_witness :
  status (POST Inspect (at_ 1000 timeout) garbled empty).1 = 500 /\
  json_get "error" (payload (POST Inspect (at_ 1000 timeout) garbled empty).1)
    = Some (JStr "Invalid JSON payload") /\
  json_get "code" (payload (POST Inspect (at_ 1000 timeout) garbled empty).1)
    = Some (JStr "Error") /\
  json_get "issues" (payload (POST Inspect (at_ 1000 timeout) garbled empty).1) = None /\
  ~ has_field_errors (POST Inspect (at_ 1000 timeout) garbled empty).1 /\
  (forall issues, (POST Inspect (at_ 1000 timeout) garbled empty).1 <> validation_failed issues).
Proof.
  apply (unparseable_body_is_a_plain_500 Inspect (at_ 1000 timeout) garbled empty).
  - split; vm_compute; reflexivity.
  - vm_compute. reflexivity.
Defined.

Lemma server_error_has_message_and_code_witness :
  (exists thrown : option ErrorObject,
      payload (POST Inspect (at_ 1000 timeout) (post inspection) empty).1
      = JObj ([("error", JStr (from_option message "Analysis failed" thrown));
               ("code", JStr (from_option name "UNKNOWN_ERROR" thrown))]
              ++ if String.eqb (NODE_ENV (at_ 1000 timeout)) "development"
                 then opt_prop "stack" (JStr <$> (stack <$> thrown))
                 else []) /\
      match limit_rejects (at_ 1000 timeout) with
      | Some (RejectError err) => thrown = Some err
      | Some RejectOther => thrown = None
      | None =>
          exists msg,
            thrown = Some {| name := "Error"; message := msg; stack := captureStack msg |} /\
            (msg = "Invalid JSON payload" \/
             (exists err,
                 completion (at_ 1000 timeout) = ProviderRejects err /\
                 msg = "Analysis failed: " +:+ message err) \/
             msg = "Empty response from OpenAI" \/
             msg = malformed_message Inspect)
      end) /\
  (NODE_ENV (at_ 1000 timeout) <> "development" ->
   json_get "stack" (payload (POST Inspect (at_ 1000 timeout) (post inspection) empty).1) = None).
Proof.
  apply (server_error_has_message_and_code Inspect (at_ 1000 timeout) (post inspection) empty).
  vm_compute. reflexivity.
Defined.

Lemma cache_failures_are_best_effort_witness :
  (status (POST Generate (with_get_rejects (Some store_down) (at_ 2000 (answers ads_reply))) (post scenario) visit1.2).1 = 200 /\
   json_get (content_key Generate) (payload (POST Generate (with_get_rejects (Some store_down) (at_ 2000 (answers ads_reply))) (post scenario) visit1.2).1)
   = payload_content Generate ads_reply /\
   cache_mark (POST Generate (with_get_rejects (Some store_down) (at_ 2000 (answers ads_reply))) (post scenario) visit1.2).1 = Some (JStr "miss") /\
   (exists evs,
       trace (POST Generate (with_get_rejects (Some store_down) (at_ 2000 (answers ads_reply))) (post scenario) visit1.2).2 = trace visit1.2 ++ evs /\
       List.filter is_provider_call evs = [EvProvider "gpt-4" scenario]) /\
   (POST Generate (with_get_rejects (Some store_down) (at_ 2000 (answers ads_reply))) (post scenario) visit1.2).1
   = (POST Generate (with_get_rejects None (at_ 2000 (answers ads_reply))) (post scenario)
        (set_entries ∅ visit1.2)).1) /\
  (status (POST Generate (with_set_rejects (Some store_down) (at_ 1000 (answers ads_reply))) (post scenario) empty).1 = 200 /\
   json_get (content_key Generate) (payload (POST Generate (with_set_rejects (Some store_down) (at_ 1000 (answers ads_reply))) (post scenario) empty).1)
   = payload_content Generate ads_reply /\
   (POST Generate (with_set_rejects (Some store_down) (at_ 1000 (answers ads_reply))) (post scenario) empty).1
   = (POST Generate (with_set_rejects None (at_ 1000 (answers ads_reply))) (post scenario)
        empty).1 /\
   entries (POST Generate (with_set_rejects (Some store_down) (at_ 1000 (answers ads_reply))) (post scenario) empty).2 = entries empty /\
   exists evs,
     trace (POST Generate (with_set_rejects (Some store_down) (at_ 1000 (answers ads_reply))) (post scenario) empty).2 = trace empty ++ evs /\
     last evs = Some (EvConsole "warn" "Cache set failed:")).
Proof.
  split.
  - refine (proj1 (cache_failures_are_best_effort Generate (at_ 2000 (answers ads_reply))
             (post scenario) visit1.2 store_down scenario (stringify ads_reply) (Some 412)
             ads_reply _ _ _ _ _ _)).
    + split; vm_compute; reflexivity.
    + exists scenario. split; vm_compute; reflexivity.
    + reflexivity.
    + vm_compute. discriminate.
    + vm_compute. reflexivity.
    + vm_compute. reflexivity.
  - refine (proj2 (cache_failures_are_best_effort Generate (at_ 1000 (answers ads_reply))
             (post scenario) empty store_down scenario (stringify ads_reply) (Some 412)
             ads_reply _ _ _ _ _ _) _).
    + split; vm_compute; reflexivity.
    + exists scenario. split; vm_compute; reflexivity.
    + reflexivity.
    + vm_compute. discriminate.
    + vm_compute. reflexivity.
    + vm_compute. reflexivity.
    + vm_compute. reflexivity.
Defined.

Lemma invalid_request_consumes_quota_witness :
  status (POST Generate (at_ 1000 timeout) garbled empty).1
    = match JSON_parse (text garbled) with None => 500 | Some _ => 400 end /\
  windows (POST Generate (at_ 1000 timeout) garbled empty).2
    = (decision Generate (at_ 1000 timeout) garbled empty).2 /\
  used Generate (client_ip garbled) (now (at_ 1000 timeout))
    (POST Generate (at_ 1000 timeout) garbled empty).2
    = S (used Generate (client_ip garbled) (now (at_ 1000 timeout)) empty) /\
  exists evs,
    trace (POST Generate (at_ 1000 timeout) garbled empty).2
    = trace empty ++ EvLimit (client_key Generate (client_ip garbled)) :: evs.
Proof.
  apply (invalid_request_consumes_quota Generate (at_ 1000 timeout) garbled empty).
  - split; vm_compute; reflexivity.
  - left. vm_compute. reflexivity.
Defined.

(** What the failures of the scenario look like to the caller. *)
Example failures_as_answered :
  (POST Generate (at_ 1000 timeout) (post scenario) empty).1
  = NextResponse_json
      (JObj [("error", JStr "OpenAI request failed: Request timed out.");
             ("code", JStr "Error")]) 500 /\
  (POST Generate
     {| now := 1000; NODE_ENV := "production"; limit_rejects := Some store_down;
        get_rejects := None; set_rejects := None; completion := timeout |}
     (post scenario) empty).1
  = NextResponse_json
      (JObj [("error", JStr "fetch failed"); ("code", JStr "UpstashError")]) 500 /\
  (POST Inspect
     {| now := 1000; NODE_ENV := "development"; limit_rejects := None;
        get_rejects := None; set_rejects := None; completion := timeout |}
     (post inspection) empty).1
  = NextResponse_json
      (JObj [("error", JStr "Analysis failed: Request timed out.");
             ("code", JStr "Error");
             ("stack", JStr "Error: Analysis failed: Request timed out. at POST (route.ts)")])
      500.
Proof. vm_compute. repeat split. Qed.

End Examples.

(** * Further properties *)

(** ** The client identifier *)

Lemma to_list_rev_app s1 s2 :
  String.list_ascii_of_string (String.rev_app s1 s2)
  = rev (String.list_ascii_of_string s1) ++ String.list_ascii_of_string s2.
Proof.
  revert s2. induction s1 as [|c s1 IH]; intros s2; [reflexivity|].
  cbn. rewrite IH. cbn. by rewrite <- app_assoc.
Qed.

Lemma to_list_rev s :
  String.list_ascii_of_string (String.rev s) = rev (String.list_ascii_of_string s).
Proof. unfold String.rev. rewrite to_list_rev_app. cbn. by rewrite app_nil_r. Qed.

Lemma head_rev {A} (l : list A) : head (rev l) = last l.
Proof. rewrite rev_alt. apply head_reverse. Qed.

Lemma last_rev {A} (l : list A) : last (rev l) = head l.
Proof. rewrite rev_alt. apply last_reverse. Qed.

Lemma rev_empty s : String.rev s = EmptyString -> s = EmptyString.
Proof.
  intros Hrev. apply (f_equal String.list_ascii_of_string) in Hrev.
  rewrite to_list_rev in Hrev. cbn in Hrev.
  destruct s as [|c s]; [reflexivity|]. cbn in Hrev.
  by destruct (rev (String.list_ascii_of_string s)).
Qed.

Lemma trimStart_head s c rest : trimStart s = String c rest -> is_space c = false.
Proof.
  induction s as [|a s IH]; cbn; [discriminate|].
  destruct (is_space a) eqn:Ha; [exact IH|]. by intros [= <- _].
Qed.

Lemma trimStart_suffix s :
  exists spaces, String.list_ascii_of_string s
                 = spaces ++ String.list_ascii_of_string (trimStart s).
Proof.
  induction s as [|a s [spaces IH]]; [by exists []|].
  cbn. destruct (is_space a); [|by exists []].
  exists (a :: spaces). cbn. by rewrite IH.
Qed.

Lemma trimStart_blank s :
  (forall c, In c (String.list_ascii_of_string s) -> is_space c = true) ->
  trimStart s = EmptyString.
Proof.
  induction s as [|a s IH]; intros Hall; [reflexivity|].
  cbn. rewrite (Hall a) by (by left). apply IH. intros c Hc. apply Hall. by right.
Qed.

Lemma before_comma_no_comma s :
  ~ In ","%char (String.list_ascii_of_string (before_comma s)).
Proof.
  induction s as [|a s IH]; cbn; [tauto|].
  destruct (Ascii.eqb_spec a ","%char); cbn; [tauto|]. intros [-> | Hin]; tauto.
Qed.

Lemma before_comma_app h t :
  ~ In ","%char (String.list_ascii_of_string h) ->
  before_comma (h +:+ "," +:+ t) = h.
Proof.
  induction h as [|a h IH]; intros Hno; [reflexivity|].
  change (String a h +:+ "," +:+ t) with (String a (h +:+ "," +:+ t)).
  cbn in *. destruct (Ascii.eqb_spec a ","%char) as [-> | _]; [tauto|].
  f_equal. apply IH. tauto.
Qed.

Lemma trim_chars s c :
  In c (String.list_ascii_of_string (trim s)) -> In c (String.list_ascii_of_string s).
Proof.
  unfold trim. rewrite to_list_rev, <- in_rev.
  destruct (trimStart_suffix (String.rev (trimStart s))) as [sp1 H1].
  destruct (trimStart_suffix s) as [sp2 H2].
  intros Hin. rewrite H2. apply in_or_app. right.
  apply (in_rev (String.list_ascii_of_string (trimStart s))).
  rewrite <- to_list_rev, H1. apply in_or_app. by right.
Qed.

(** What [trim] leaves has no white space at either end. *)
Lemma trim_ends s :
  (forall c, head (String.list_ascii_of_string (trim s)) = Some c -> is_space c = false) /\
  (forall c, last (String.list_ascii_of_string (trim s)) = Some c -> is_space c = false).
Proof.
  unfold trim. rewrite to_list_rev.
  set (a := trimStart s). set (b := trimStart (String.rev a)).
  split; intros c Hc.
  - (* the first character of the result is the last of [b], which is the
       last of [rev a], the first of [a] *)
    rewrite head_rev in Hc.
    destruct (trimStart_suffix (String.rev a)) as [spaces Hsplit]. fold b in Hsplit.
    assert (last (String.list_ascii_of_string (String.rev a)) = Some c) as Hlast.
    { rewrite Hsplit. destruct (String.list_ascii_of_string b) as [|x l] eqn:Hb;
        [discriminate|]. rewrite last_app. by rewrite Hc. }
    rewrite to_list_rev, last_rev in Hlast.
    destruct a as [|x a'] eqn:Ha; [discriminate|]. cbn in Hlast.
    injection Hlast as ->. by apply (trimStart_head s c a').
  - rewrite last_rev in Hc.
    destruct b as [|x b'] eqn:Hb; [discriminate|]. cbn in Hc. injection Hc as ->.
    by apply (trimStart_head (String.rev a) c b').
Qed.

(** X1.  The identifier of a client is never empty, holds no comma and has no
    white space at either end, whatever the header holds. *)
Theorem client_ip_is_well_formed request :
  client_ip request <> EmptyString /\
  ~ In ","%char (String.list_ascii_of_string (client_ip request)) /\
  (forall c, head (String.list_ascii_of_string (client_ip request)) = Some c ->
             is_space c = false) /\
  (forall c, last (String.list_ascii_of_string (client_ip request)) = Some c ->
             is_space c = false).
Proof.
  unfold client_ip. destruct (x_forwarded_for request) as [h|].
  - destruct (String.eqb_spec (trim (before_comma h)) EmptyString) as [_ | Hne].
    + repeat split; try done.
      * cbn. intros [H|H]; repeat (destruct H as [H|H]; try discriminate H); done.
      * intros c [= <-]. reflexivity.
      * intros c [= <-]. reflexivity.
    + split; [exact Hne|]. split; [|apply trim_ends].
      intros Hin. apply trim_chars in Hin. by apply before_comma_no_comma in Hin.
  - repeat split; try done.
    + cbn. intros H; repeat (destruct H as [H|H]; try discriminate H); done.
    + intros c [= <-]. reflexivity.
    + intros c [= <-]. reflexivity.
Qed.

(** X2.  Only the first entry of the header counts: what follows the first
    comma does not change the identifier. *)
Theorem client_ip_reads_first_entry first others :
  ~ In ","%char (String.list_ascii_of_string first) ->
  client_ip {| x_forwarded_for := Some (first +:+ "," +:+ others); text := EmptyString |}
  = client_ip {| x_forwarded_for := Some first; text := EmptyString |}.
Proof.
  intros Hno. unfold client_ip. cbn [x_forwarded_for].
  rewrite before_comma_app by done.
  assert (before_comma first = first) as ->; [|reflexivity].
  clear others. induction first as [|a s IH]; [reflexivity|].
  cbn in *. destruct (Ascii.eqb_spec a ","%char) as [-> | _]; [tauto|].
  f_equal. apply IH. tauto.
Qed.

(** X18.  When the first entry of the header is blank (empty, or white space
    only) the identifier is the loopback address, as it is when the header is
    absent: all such clients share one quota. *)
Theorem blank_header_is_the_loopback_client request h :
  x_forwarded_for request = Some h ->
  (forall c, In c (String.list_ascii_of_string (before_comma h)) -> is_space c = true) ->
  client_ip request = "127.0.0.1" /\
  client_ip request = client_ip {| x_forwarded_for := None; text := text request |}.
Proof.
  intros Hh Hblank. unfold client_ip. rewrite Hh. cbn [x_forwarded_for].
  unfold trim. rewrite (trimStart_blank _ Hblank). split; reflexivity.
Qed.

(** ** Validation, exactly *)

Lemma parse_type_issue t p input i :
  In i (parse_type t p input).1 -> offends t input /\ path i = p.
Proof.
  revert input. induction t as [checks | values | t IH]; intros input; cbn.
  - destruct input as [[| | |s| |]|]; cbn;
      try (intros [<- | []]; split; [|reflexivity];
           first [apply missing_string | apply no_string; discriminate]).
    intros Hin. apply in_flat_map in Hin as (c & Hc & Hi).
    destruct c as [n|n]; unfold run_check in Hi.
    + destruct (Nat.ltb_spec (String.length s) n); [|destruct Hi].
      destruct Hi as [<- | []]. split; [by apply (too_short _ n) | reflexivity].
    + destruct (Nat.ltb_spec n (String.length s)); [|destruct Hi].
      destruct Hi as [<- | []]. split; [by apply (too_long _ n) | reflexivity].
  - destruct input as [[| | |s| |]|]; cbn;
      try (intros [<- | []]; split; [|reflexivity];
           first [apply missing_enum | apply no_enum_string; discriminate]).
    destruct (string_in s values) eqn:Hin; cbn; [intros []|].
    intros [<- | []]. split; [|reflexivity]. apply not_in_enum. intros Hs.
    unfold string_in in Hin. apply not_true_iff_false in Hin. apply Hin.
    apply existsb_exists. exists s. split; [exact Hs | apply String.eqb_refl].
  - destruct input as [j|]; [|intros []].
    intros Hin. destruct (IH _ Hin) as [Hoff Hp]. split; [by apply in_optional | exact Hp].
Qed.

(** Without an issue a field schema yields its input. *)
Lemma parse_type_clean t p input :
  (parse_type t p input).1 = [] -> (parse_type t p input).2 = input.
Proof.
  revert input. induction t as [checks | values | t IH]; intros input; cbn.
  - by destruct input as [[| | |s| |]|].
  - destruct input as [[| | |s| |]|]; try done. by destruct (string_in s values).
  - destruct input as [j|]; [apply IH | reflexivity].
Qed.

Lemma parse_shape_issue shape data i :
  In i (parse_shape shape data).1 ->
  exists f t, In (f, t) shape /\ offends t (obj_get f data) /\ path i = [f].
Proof.
  induction shape as [|[key t] shape IH]; cbn; [intros []|].
  destruct (parse_type t [key] (obj_get key data)) as [issues1 v] eqn:E1.
  destruct (parse_shape shape data) as [issues2 out] eqn:E2. cbn.
  intros Hin. apply in_app_or in Hin as [Hin | Hin].
  - pose proof (parse_type_issue t [key] (obj_get key data) i) as Hi.
    rewrite E1 in Hi. destruct (Hi Hin) as [Hoff Hp].
    exists key, t. split; [by left | done].
  - destruct (IH Hin) as (f & t' & Hf & Hoff & Hp).
    exists f, t'. split; [by right | done].
Qed.

Lemma parse_shape_clean shape data :
  (parse_shape shape data).1 = [] -> (parse_shape shape data).2 = project shape data.
Proof.
  induction shape as [|[key t] shape IH]; cbn; [reflexivity|].
  pose proof (parse_type_clean t [key] (obj_get key data)) as Hclean.
  destruct (parse_type t [key] (obj_get key data)) as [issues1 v].
  destruct (parse_shape shape data) as [issues2 out]. cbn in *.
  intros Hnil. apply app_eq_nil in Hnil as [-> ->].
  rewrite Hclean, IH by reflexivity. reflexivity.
Qed.

Lemma safeParse_success shape data v :
  safeParse shape (JObj data) = ParseSuccess v -> v = JObj (project shape data).
Proof.
  unfold safeParse. pose proof (parse_shape_clean shape data) as Hclean.
  destruct (parse_shape shape data) as [[|i issues] out]; [|discriminate].
  cbn in Hclean. intros [= <-]. by rewrite Hclean.
Qed.

(** Validation succeeds exactly when no field of the shape offends. *)
Lemma safeParse_exact shape data :
  (exists v, safeParse shape (JObj data) = ParseSuccess v) <->
  (forall f t, In (f, t) shape -> ~ offends t (obj_get f data)).
Proof.
  split.
  - intros [v Hv] f t Hin Hoff.
    destruct (safeParse_offends shape data f t Hin Hoff) as (issues & _ & Hbad & _).
    congruence.
  - intros Hnone. unfold safeParse.
    destruct (parse_shape shape data) as [[|i issues] out] eqn:E; [by eexists|].
    destruct (parse_shape_issue shape data i) as (f & t & Hin & Hoff & _).
    { rewrite E. by left. }
    by destruct (Hnone f t Hin).
Qed.

Lemma obj_get_opt_prop f key v rest :
  obj_get f (opt_prop key v ++ rest)
  = if String.eqb f key then match v with Some x => Some x | None => obj_get f rest end
    else obj_get f rest.
Proof.
  destruct v as [x|]; cbn; [reflexivity|]. by destruct (String.eqb f key).
Qed.

(** What validation passes on holds the fields of the shape, read from the
    body, and nothing else. *)
Lemma obj_get_project shape data f :
  obj_get f (project shape data)
  = if names_field shape f then obj_get f data else None.
Proof.
  unfold names_field, project.
  induction shape as [|[key t] shape IH]; [reflexivity|].
  cbn [flat_map map fst existsb]. rewrite obj_get_opt_prop, IH.
  destruct (String.eqb_spec f key) as [-> | Hne]; cbn; [|reflexivity].
  destruct (obj_get key data); [reflexivity|]. by destruct (existsb _ _).
Qed.

Lemma project_keys shape data :
  map fst (project shape data)
  = List.filter (fun key => match obj_get key data with Some _ => true | None => false end)
      (map fst shape).
Proof.
  unfold project. induction shape as [|[key t] shape IH]; [reflexivity|].
  cbn [flat_map map fst List.filter]. rewrite map_app, IH.
  by destruct (obj_get key data).
Qed.

Section Validated.
Context `{Platform}.

Lemma POST_valid_status e env request w validated :
  allowed e env request w ->
  valid_body e request validated ->
  In (status (POST e env request w).1) [200; 500].
Proof.
  intros Hadm (body & Hbody & Hvalid). use_allowed Hadm Hup Hd. name_runs.
  destruct e; cbn in Hvalid; unfold_handler;
    split_using ltac:(rewrite ?Hup, ?Hd, ?Hbody, ?Hvalid);
    intros [= <- <-]; cbn in *; try congruence; auto.
Qed.

(** X3.  An admitted request whose body is an object is answered with 400
    exactly when a field of the schema offends: no body within the bounds is
    turned away, none outside them gets through. *)
Theorem rejected_exactly_when_a_field_offends e env request w data :
  allowed e env request w ->
  JSON_parse (text request) = Some (JObj data) ->
  status (POST e env request w).1 = 400 <->
  exists f t, In (f, t) (schema e) /\ offends t (obj_get f data).
Proof.
  intros Hadm Hbody. split.
  - intros H400. destruct (safeParse (schema e) (JObj data)) as [v | issues] eqn:Hparse.
    + assert (valid_body e request v) as Hvalid by (by exists (JObj data)).
      pose proof (POST_valid_status _ _ _ _ _ Hadm Hvalid) as Hst.
      rewrite H400 in Hst. cbn in Hst. intuition discriminate.
    + unfold safeParse in Hparse.
      destruct (parse_shape (schema e) data) as [[|i issues'] out] eqn:E; [discriminate|].
      destruct (parse_shape_issue (schema e) data i) as (f & t & Hin & Hoff & _).
      { rewrite E. by left. }
      by exists f, t.
  - intros (f & t & Hin & Hoff).
    destruct (safeParse_offends _ _ _ _ Hin Hoff) as (issues & i & Hbad & _).
    by rewrite (POST_invalid _ _ _ _ _ _ Hadm Hbody Hbad).
Qed.

(** X4.  What validation passes on is the body cut down to the schema: its
    fields are the fields of the schema that the body holds, with the body's
    values, in the order of the schema; a property the schema does not name is
    dropped.  The cache is read under the key of that value. *)
Theorem validated_is_the_body_cut_to_the_schema e env request w data validated :
  allowed e env request w ->
  JSON_parse (text request) = Some (JObj data) ->
  safeParse (schema e) (JObj data) = ParseSuccess validated ->
  validated = JObj (project (schema e) data) /\
  (forall f, json_get f validated
             = if names_field (schema e) f then obj_get f data else None) /\
  map fst (project (schema e) data)
  = List.filter (fun key => match obj_get key data with Some _ => true | None => false end)
      (map fst (schema e)) /\
  exists evs,
    trace (POST e env request w).2 = trace w ++ evs /\
    hd_error (cache_keys evs) = Some (cacheKey e (JObj (project (schema e) data))).
Proof.
  intros Hadm Hbody Hvalid. pose proof (safeParse_success _ _ _ Hvalid) as ->.
  split; [reflexivity|]. split; [intros f; apply obj_get_project|].
  split; [apply project_keys|].
  assert (valid_body e request (JObj (project (schema e) data))) as Hv
    by (by exists (JObj data)).
  destruct (POST_cache_keys _ _ _ _ _ Hadm Hv) as (evs & Htrace & Hhd & _).
  by exists evs.
Qed.

(** X5.  A validated value validates to itself. *)
Theorem validation_is_idempotent e body validated :
  safeParse (schema e) body = ParseSuccess validated ->
  safeParse (schema e) validated = ParseSuccess validated.
Proof.
  intros Hvalid. destruct body as [| | | | |data]; try discriminate.
  pose proof (safeParse_success _ _ _ Hvalid) as ->.
  rewrite <- Hvalid. apply safeParse_by_lookup.
  intros f t Hin. rewrite obj_get_project.
  assert (names_field (schema e) f = true) as ->; [|reflexivity].
  apply existsb_exists. exists f. split; [|apply String.eqb_refl].
  apply in_map_iff. by exists (f, t).
Qed.

(** X6.  Every entry of the [issues] of a 400 answer to an object body names
    a field of the schema, and that field offends: no issue is reported for a
    field that is in order. *)
Theorem every_issue_names_an_offending_field e env request w data issues entry :
  allowed e env request w ->
  JSON_parse (text request) = Some (JObj data) ->
  status (POST e env request w).1 = 400 ->
  json_get "issues" (payload (POST e env request w).1) = Some (JArr issues) ->
  In entry issues ->
  exists f t,
    In (f, t) (schema e) /\ offends t (obj_get f data) /\
    json_get "path" entry = Some (JStr f).
Proof.
  intros Hadm Hbody H400 Hissues Hentry.
  destruct (safeParse (schema e) (JObj data)) as [v | found] eqn:Hparse.
  - assert (valid_body e request v) as Hvalid by (by exists (JObj data)).
    pose proof (POST_valid_status _ _ _ _ _ Hadm Hvalid) as Hst.
    rewrite H400 in Hst. cbn in Hst. intuition discriminate.
  - rewrite (POST_invalid _ _ _ _ _ _ Hadm Hbody Hparse) in Hissues.
    injection Hissues as <-.
    apply in_map_iff in Hentry as (i & <- & Hi).
    unfold safeParse in Hparse.
    destruct (parse_shape (schema e) data) as [[|i0 rest] out] eqn:E; [discriminate|].
    injection Hparse as <-.
    destruct (parse_shape_issue (schema e) data i) as (f & t & Hin & Hoff & Hp).
    { by rewrite E. }
    exists f, t. repeat split; try done. unfold issue_json. by rewrite Hp.
Qed.

End Validated.

(** ** What the cache holds *)

Section Invariant.
Context `{Platform}.











End Invariant.

(** ** The limiter's verdict and the rest of the invocation *)

Section Verdict.
Context `{Platform}.

(** X9.  When the store rejects the limiter's call, the request is turned
    away with 500: the answer carries the message and the name of the store's
    error, or the endpoint's default message and [UNKNOWN_ERROR] when what was
    thrown is no [Error]; the body is not read, nothing is counted, and the
    only effects are the limiter's call and one line on the console. *)
Theorem limiter_outage_fails_closed e env request w rejection :
  limit_rejects env = Some rejection ->
  status (POST e env request w).1 = 500 /\
  json_get "error" (payload (POST e env request w).1)
    = Some (JStr match rejection with
                 | RejectError err => message err
                 | RejectOther =>
                     match e with
                     | Generate => "Generation failed"
                     | Inspect => "Analysis failed"
                     end
                 end) /\
  json_get "code" (payload (POST e env request w).1)
    = Some (JStr match rejection with
                 | RejectError err => name err
                 | RejectOther => "UNKNOWN_ERROR"
                 end) /\
  windows (POST e env request w).2 = windows w /\
  entries (POST e env request w).2 = entries w /\
  trace (POST e env request w).2
    = trace w ++ [EvLimit (client_key e (client_ip request));
                  EvConsole "error" match e with
                                    | Generate => "Endpoint error:"
                                    | Inspect => "Inspection error:"
                                    end].
Proof.
  intros Hdown. name_runs.
  destruct e, rejection; unfold_handler; split_using ltac:(rewrite ?Hdown);
    intros [= <- <-]; cbn in *; try congruence;
    rewrite <- ?app_assoc; repeat split.
Qed.

(** X10.  Every request that passes the limiter counts against the client's
    quota, whatever becomes of it: a cache hit, a provider failure and a
    validation error cost as much as a fresh answer.  Before it the client
    had used fewer than three requests of the window. *)
Theorem every_admitted_request_counts e env request w :
  allowed e env request w ->
  (used e (client_ip request) (now env) w < 3)%nat /\
  used e (client_ip request) (now env) (POST e env request w).2
    = S (used e (client_ip request) (now env) w).
Proof.
  intros [Hup Hok]. split.
  - rewrite decision_success in Hok. by apply Nat.ltb_lt.
  - unfold used. rewrite history_after, Hok by done.
    pose proof (window_ratelimit e) as HW.
    rewrite recent_all; [reflexivity|].
    constructor; [lia|].
    apply List.Forall_forall. intros x Hx. by apply recent_in in Hx as [_ ?].
Qed.

(** X11.  A request that the limiter turns away is answered by the limiter
    alone: the body is not read (two requests of the client get the same
    answer whatever they post), nothing is counted, the cache is left alone
    and the limiter's call is the only effect. *)
Theorem limited_request_is_not_processed e env request w :
  limit_rejects env = None ->
  (decision e env request w).1.1 = false ->
  (POST e env request w).1
    = limit_reached (limit_message e) (decision e env request w).1.2 /\
  (forall other, client_ip other = client_ip request ->
                 POST e env other w = POST e env request w) /\
  windows (POST e env request w).2 = windows w /\
  entries (POST e env request w).2 = entries w /\
  trace (POST e env request w).2 = trace w ++ [EvLimit (client_key e (client_ip request))].
Proof.
  intros Hup Hno. unfold decision in *.
  destruct (slidingWindow (ratelimit e) (identifier e (client_ip request)) (now env)
              (windows w)) as [[ok reset] ws] eqn:Hd.
  cbn in Hno. subst ok.
  assert (ws = windows w) as ->.
  { unfold slidingWindow in Hd. destruct (_ <? _)%nat; congruence. }
  assert (forall other, client_ip other = client_ip request ->
            POST e env other w
            = (limit_reached (limit_message e) reset,
               log (EvLimit (client_key e (client_ip request))) w)) as Hall.
  { intros other Hsame. destruct w as [ws es tr]. cbn in Hd.
    destruct e; unfold_handler; rewrite Hsame; unfold log, set_windows;
      split_using ltac:(rewrite ?Hup, ?Hd); cbn in *; first [congruence | reflexivity]. }
  rewrite (Hall request eq_refl). cbn.
  repeat split. intros other Hsame. by rewrite (Hall other Hsame).
Qed.

End Verdict.

(** ** The provider and the time to live *)

Section Upstream.
Context `{Platform}.


(** X13.  When the provider's call fails, or its completion has no content,
    an admitted, valid request that missed the cache is answered with 500 and
    a message that names the endpoint's step and, for a failed call, the
    provider's own message; nothing is stored, and the failure is written to
    the console. *)
Theorem provider_failure_is_reported_and_not_cached e env request w validated msg :
  allowed e env request w ->
  valid_body e request validated ->
  truthy (cached_value env (cacheKey e validated) w) = false ->
  provider_failure e (completion env) = Some msg ->
  status (POST e env request w).1 = 500 /\
  json_get "error" (payload (POST e env request w).1) = Some (JStr msg) /\
  json_get "code" (payload (POST e env request w).1) = Some (JStr "Error") /\
  entries (POST e env request w).2 = entries w /\
  exists evs,
    trace (POST e env request w).2 = trace w ++ evs /\
    forallb (fun ev => negb (is_cache_write ev)) evs = true /\
    last evs = Some (EvConsole "error" match e with
                                       | Generate => "Endpoint error:"
                                       | Inspect => "Inspection error:"
                                       end).
Proof.
  intros Hadm (body & Hbody & Hvalid) Hmiss Hfail.
  use_allowed Hadm Hup Hd. unfold cached_value in Hmiss. revert Hmiss. name_runs.
  unfold provider_failure in Hfail.
  destruct (completion env) as [err | content total_tokens] eqn:Hreply;
    [|destruct (no_content content) eqn:Hempty; [|discriminate]];
    injection Hfail as <-;
    destruct e; cbn in Hvalid; unfold_handler;
    split_using ltac:(rewrite ?Hup, ?Hd, ?Hbody, ?Hvalid, ?Hreply, ?Hempty);
    intros [= <- <-] Hmiss; cbn in *; try congruence;
    repeat (split; [reflexivity|]);
    rewrite <- ?app_assoc; eexists; repeat split.
Qed.

End Upstream.

(** ** What a request is read by *)

Section Reading.
Context `{Platform}.

(** X14.  An invocation reads its request by the first entry of the
    forwarding header and by the fields of the schema in the body, and by
    nothing else: two requests of one client whose bodies are objects that
    agree on every field of the schema get the same answer and leave the same
    store, whatever the order of the properties and whatever other properties
    the bodies hold. *)
Theorem only_schema_fields_matter e env r1 r2 w data1 data2 :
  client_ip r1 = client_ip r2 ->
  JSON_parse (text r1) = Some (JObj data1) ->
  JSON_parse (text r2) = Some (JObj data2) ->
  (forall f t, In (f, t) (schema e) -> obj_get f data1 = obj_get f data2) ->
  POST e env r1 w = POST e env r2 w.
Proof.
  intros Hip H1 H2 Hsame.
  pose proof (safeParse_by_lookup (schema e) data1 data2 Hsame) as Hparse.
  name_runs.
  destruct e; cbn in Hparse; unfold_handler;
    split_using ltac:(rewrite ?Hip, ?H1, ?H2, ?Hparse);
    intros [= <- <-] [= <- <-]; cbn in *; congruence.
Qed.

(** X15.  A body that is JSON but no object (a string, a number, an array,
    [null]) is a schema violation without a field: the 400 answer has one
    issue, and its path is empty. *)
Theorem non_object_body_is_one_issue_without_path e env request w body :
  allowed e env request w ->
  JSON_parse (text request) = Some body ->
  (forall props, body <> JObj props) ->
  status (POST e env request w).1 = 400 /\
  exists msg,
    json_get "issues" (payload (POST e env request w).1)
    = Some (JArr [JObj [("path", JStr EmptyString); ("message", JStr msg)]]).
Proof.
  intros Hadm Hbody Hobj.
  assert (safeParse (schema e) body
          = ParseError [mkIssue (invalid_type "object" (getParsedType (Some body))) []]) as Hbad.
  { destruct body; try reflexivity. by destruct (Hobj props). }
  rewrite (POST_invalid _ _ _ _ _ _ Hadm Hbody Hbad). split; [reflexivity|].
  eexists. reflexivity.
Qed.

(** X16.  The key spaces are apart: no key of the limiter is a key of the
    cache, the limiter's keys of the two endpoints never coincide, and a
    limiter key determines the client it counts. *)
Theorem limiter_and_cache_keys_are_apart e ip e' validated ip' :
  client_key e ip <> cacheKey e' validated /\
  (client_key e ip = client_key e' ip' -> e = e' /\ ip = ip') /\
  starts_with (prefix (ratelimit e) +:+ ":") (client_key e ip) = true.
Proof.
  split; [|split].
  - destruct e, e';
      cbv [client_key limiter_key ratelimit identifier new_Ratelimit prefix cacheKey
           String.append]; discriminate.
  - apply client_key_inj.
  - destruct e; reflexivity.
Qed.

End Reading.

(** ** The diagnostic routes *)

(** X19.  The two diagnostic routes tell which variables of the environment
    are set and nothing about their values: two environments that set the
    same variables get the same answers.  The debug route answers 200 and
    [healthy] whatever is set. *)
Theorem diagnostics_reveal_presence_only mark penv penv' :
  is_set (OPENAI_API_KEY penv) = is_set (OPENAI_API_KEY penv') ->
  is_set (UPSTASH_REDIS_REST_URL penv) = is_set (UPSTASH_REDIS_REST_URL penv') ->
  is_set (UPSTASH_REDIS_REST_TOKEN penv) = is_set (UPSTASH_REDIS_REST_TOKEN penv') ->
  GET_debug penv = GET_debug penv' /\
  GET_check_env mark penv = GET_check_env mark penv' /\
  status (GET_debug penv) = 200 /\
  json_get "status" (payload (GET_debug penv)) = Some (JStr "healthy").
Proof.
  intros Hkey Hurl Htoken. unfold GET_debug, GET_check_env, check_env_label.
  rewrite Hkey, Hurl, Htoken. repeat split.
Qed.

(** ** The page and the routes *)

Section Page.
Context `{Platform}.

(** Every answer but a 200 is an object with a message under [error] and
    without the content the page looks for. *)
Lemma POST_refusal e env request w :
  status (POST e env request w).1 <> 200 ->
  exists msg,
    json_get "error" (payload (POST e env request w).1) = Some (JStr msg) /\
    json_get (content_key e) (payload (POST e env request w).1) = None /\
    is_null (payload (POST e env request w).1) = false /\
    (status (POST e env request w).1 = 400 -> msg = "Validation failed") /\
    (status (POST e env request w).1 = 429 -> msg = limit_message e).
Proof.
  name_runs.
  destruct e; unfold_handler; split_handler; intros [= <- <-] Hst; cbn in *;
    try (by destruct Hst);
    eexists; (split; [reflexivity|]); (split; [reflexivity|]); (split; [reflexivity|]);
    split; intros; first [discriminate | reflexivity].
Qed.

(** The limiter's call is the first effect of every invocation. *)
Lemma POST_checks_limit_first e env request w :
  exists evs,
    trace (POST e env request w).2
    = trace w ++ EvLimit (client_key e (client_ip request)) :: evs.
Proof.
  name_runs. destruct e; unfold_handler; split_handler; intros [= <- <-]; cbn;
    rewrite <- ?app_assoc; eexists; reflexivity.
Qed.

Lemma sends_Inspect p :
  sends Inspect p = true ->
  acceptedTermsInspect p = true /\
  String.eqb (currentInput p) (previousAnalysisInput p) = false.
Proof.
  cbn. intros [Hterms Hnew]%andb_true_iff. by apply negb_true_iff in Hnew.
Qed.

(** What a submission does once the answer is read. *)
Lemma submit_run e b env p w data :
  sends e p = true ->
  fetch_rejects b = None ->
  JSON_parse (JSON_stringify (payload (POST e env (posted e b p) w).1)) = Some data ->
  is_null data = false ->
  (submit e b env p w).2 = (POST e env (posted e b p) w).2 /\
  result e (submit e b env p w).1
    = (if truthy_opt (json_get (content_key e) data)
       then default JNull (json_get (content_key e) data)
       else no_result e) /\
  error (submit e b env p w).1
    = (if truthy_opt (json_get (content_key e) data)
       then EmptyString
       else or_message (json_get "error" data) (fallback e)) /\
  previousAnalysisInput (submit e b env p w).1
    = (if truthy_opt (json_get (content_key e) data)
       then match e with
            | Generate => previousAnalysisInput p
            | Inspect => currentInput p
            end
       else previousAnalysisInput p).
Proof.
  intros Hsends Hup Hdata Hnull. unfold posted in Hdata.
  destruct e.
  - cbn in Hsends.
    unfold submit, posted, handleAdGenSubmit, request_ads, and_then, fetch, response_json,
      response_text, read, ret, raise.
    rewrite Hsends, Hup. cbn [negb posted_object content_key] in *.
    destruct (POST Generate env _ w) as [r w'] eqn:HP. cbn [fst snd] in *.
    rewrite Hdata, Hnull.
    destruct (truthy_opt (json_get "ads" data)); repeat split.
  - apply sends_Inspect in Hsends as [Hterms Hnew].
    unfold submit, posted, handleAdInspectSubmit, request_analysis, and_then, fetch,
      response_json, response_text, read, ret, raise.
    rewrite Hterms, Hnew, Hup. cbn [negb posted_object content_key] in *.
    destruct (POST Inspect env _ w) as [r w'] eqn:HP. cbn [fst snd] in *.
    rewrite Hdata, Hnull.
    destruct (truthy_opt (json_get "analysis" data)); repeat split.
Qed.

(** X20.  When a route turns a submission down, the page shows the [error]
    text of the answer and no result: [Validation failed] for a 400, whatever
    the field issues of the answer say, and the limit message for a 429.  The
    input of the last analysis is left as it was, so the same ad can be
    submitted again. *)
Theorem page_shows_the_refusal e b env p w :
  sends e p = true ->
  fetch_rejects b = None ->
  status (POST e env (posted e b p) w).1 <> 200 ->
  JSON_parse (JSON_stringify (payload (POST e env (posted e b p) w).1))
    = Some (payload (POST e env (posted e b p) w).1) ->
  (exists msg,
      json_get "error" (payload (POST e env (posted e b p) w).1) = Some (JStr msg) /\
      error (submit e b env p w).1
      = if String.eqb msg EmptyString then fallback e else msg) /\
  result e (submit e b env p w).1 = no_result e /\
  previousAnalysisInput (submit e b env p w).1 = previousAnalysisInput p /\
  (status (POST e env (posted e b p) w).1 = 400 ->
   error (submit e b env p w).1 = "Validation failed") /\
  (status (POST e env (posted e b p) w).1 = 429 ->
   error (submit e b env p w).1 = limit_message e).
Proof.
  intros Hsends Hup Hst Hround.
  destruct (POST_refusal e env (posted e b p) w Hst)
    as (msg & Herr & Hnone & Hnull & H400 & H429).
  destruct (submit_run e b env p w _ Hsends Hup Hround Hnull) as (_ & Hres & Herror & Hprev).
  rewrite Hnone in Hres, Herror, Hprev. cbn [truthy_opt] in *.
  rewrite Herr in Herror. cbn [or_message truthy to_String] in Herror.
  rewrite Herror, Hres, Hprev. unfold truthy.
  split.
  { exists msg. split; [exact Herr|]. by destruct (String.eqb msg EmptyString). }
  repeat split.
  - intros ->%H400. reflexivity.
  - intros ->%H429. by destruct e.
Qed.

(** X21.  The page decides by the content of the answer it has parsed, never
    by the status: [data] being what [response.json()] gives for the route's
    answer, the page shows [data.ads] (the generator) or [data.analysis] (the
    inspector) and no error when that property is truthy, and the inspector
    then remembers the input it was given; when the property is missing or
    falsy, also under a status of 200, the page shows no result and the
    [error] text of [data] or, without one, the tool's fallback message, and
    the input of the last analysis is left as it was. *)
Theorem page_decides_by_the_content e b env p w data :
  sends e p = true ->
  fetch_rejects b = None ->
  JSON_parse (JSON_stringify (payload (POST e env (posted e b p) w).1)) = Some data ->
  is_null data = false ->
  (truthy_opt (json_get (content_key e) data) = true ->
   json_get (content_key e) data = Some (result e (submit e b env p w).1) /\
   error (submit e b env p w).1 = EmptyString /\
   previousAnalysisInput (submit e b env p w).1
   = match e with
     | Generate => previousAnalysisInput p
     | Inspect => currentInput p
     end) /\
  (truthy_opt (json_get (content_key e) data) = false ->
   result e (submit e b env p w).1 = no_result e /\
   error (submit e b env p w).1 = or_message (json_get "error" data) (fallback e) /\
   previousAnalysisInput (submit e b env p w).1 = previousAnalysisInput p).
Proof.
  intros Hsends Hup Hdata Hnull.
  destruct (submit_run e b env p w data Hsends Hup Hdata Hnull) as (_ & Hres & Herror & Hprev).
  split; intros Hcontent; rewrite Hcontent in Hres, Herror, Hprev.
  - rewrite Hres, Herror, Hprev. repeat split.
    by destruct (json_get (content_key e) data).
  - by rewrite Hres, Herror, Hprev.
Qed.

(** X22.  A submission reaches the route only when the terms of its tool are
    accepted and, for the inspector, the ad differs from the one analysed
    last.  Otherwise nothing is sent, the store stays as it is, and the page
    only gains an error message.  A submission that is sent passes the
    limiter first, so it counts against the quota whatever the form holds. *)
Theorem only_an_accepted_submission_is_sent e b env p w :
  (sends e p = false ->
   (submit e b env p w).2 = w /\
   exists msg, msg <> EmptyString /\ (submit e b env p w).1 = setError msg p) /\
  (sends e p = true -> fetch_rejects b = None ->
   exists evs,
     trace (submit e b env p w).2
     = trace w ++ EvLimit (client_key e (client_ip (posted e b p))) :: evs).
Proof.
  split.
  - intros Hno. destruct e; cbn in Hno; unfold submit.
    + unfold handleAdGenSubmit. rewrite Hno. cbn. split; [reflexivity|].
      eexists. split; [|reflexivity]. discriminate.
    + unfold handleAdInspectSubmit.
      destruct (acceptedTermsInspect p); cbn in *.
      * apply negb_false_iff in Hno. rewrite Hno. split; [reflexivity|].
        eexists. split; [|reflexivity]. discriminate.
      * split; [reflexivity|]. eexists. split; [|reflexivity]. discriminate.
  - intros Hsends Hup.
    destruct (POST_checks_limit_first e env (posted e b p) w) as (evs & Htrace).
    exists evs. rewrite <- Htrace. clear Htrace. f_equal.
    destruct e.
    + cbn in Hsends.
      unfold submit, posted, handleAdGenSubmit, request_ads, and_then, fetch, response_json,
        response_text, read, ret, raise.
      rewrite Hsends, Hup. cbn [negb posted_object].
      destruct (POST Generate env _ w) as [r w']. cbn [fst snd].
      destruct (JSON_parse _) as [data|]; [|reflexivity].
      destruct (is_null data); [reflexivity|].
      destruct (truthy_opt _); reflexivity.
    + apply sends_Inspect in Hsends as [Hterms Hnew].
      unfold submit, posted, handleAdInspectSubmit, request_analysis, and_then, fetch,
        response_json, response_text, read, ret, raise.
      rewrite Hterms, Hnew, Hup. cbn [negb posted_object].
      destruct (POST Inspect env _ w) as [r w']. cbn [fst snd].
      destruct (JSON_parse _) as [data|]; [|reflexivity].
      destruct (is_null data); [reflexivity|].
      destruct (truthy_opt _); reflexivity.
Qed.

(** X23.  Once the inspector shows an analysis, a submission of the same ad
    for the same platform is refused on the page, without a request: the
    comparison looks at the five inputs and the ad type, not at the industry,
    so a change of the industry alone does not get a new analysis, although
    the industry is part of what the route is sent. *)
Theorem analysed_ad_is_not_sent_again b env p w p' b' env' w' :
  acceptedTermsInspect p = true ->
  truthy (adAnalysis (handleAdInspectSubmit b env p w).1) = true ->
  adInput p' = adInput (handleAdInspectSubmit b env p w).1 ->
  adType p' = adType (handleAdInspectSubmit b env p w).1 ->
  previousAnalysisInput p'
    = previousAnalysisInput (handleAdInspectSubmit b env p w).1 ->
  acceptedTermsInspect p' = true ->
  handleAdInspectSubmit b' env' p' w'
  = (setError "Please modify some fields to get a new analysis" p', w').
Proof.
  intros Hterms Hshown Hinput Htype Hprev Hterms'.
  assert (currentInput p' = previousAnalysisInput p') as Hsame.
  { unfold currentInput. rewrite Hinput, Htype, Hprev. clear Hinput Htype Hprev.
    revert Hshown. unfold handleAdInspectSubmit. rewrite Hterms. cbn [negb].
    destruct (String.eqb_spec (currentInput p) (previousAnalysisInput p)) as [Heq | _].
    - intros _. exact Heq.
    - destruct (request_analysis _ _ _ w) as [[t | analysis] w1]; cbn.
      + discriminate.
      + reflexivity. }
  unfold handleAdInspectSubmit. rewrite Hterms', Hsame, String.eqb_refl. reflexivity.
Qed.

(** X24.  The form helper of [AdGeneratorForm] never completes: whatever the
    route answers, and also when the request is lost, its promise rejects
    with [Function not implemented.], after a line on the console.  The
    request is sent all the same. *)
Theorem handleSubmit_always_rejects b env formData w :
  (handleSubmit b env formData w).1 = inl (new_Error "Function not implemented.") /\
  (handleSubmit b env formData w).2
  = log (EvConsole "error" "Fetch error:")
      match fetch_rejects b with
      | Some _ => w
      | None =>
          (POST Generate env {| x_forwarded_for := forwarded_for b;
                                text := JSON_stringify formData |} w).2
      end.
Proof.
  unfold handleSubmit, attempt, and_then, fetch, setAds, setError_stub, console_error,
    raise, ret.
  destruct (fetch_rejects b); [split; reflexivity|].
  destruct (POST Generate env _ w) as [r w1]. cbn [fst snd].
  destruct (negb (ok r)); [split; reflexivity|].
  unfold response_json, ret, raise. destruct (JSON_parse _) as [data|]; [|split; reflexivity].
  unfold read, ret, raise. destruct (is_null data); split; reflexivity.
Qed.

End Page.

(** ** What the forms can hold *)

Lemma obj_get_obj_set f k v props :
  obj_get f (obj_set k v props) = if String.eqb f k then Some v else obj_get f props.
Proof.
  induction props as [|[k' v'] props IH]; [reflexivity|].
  change (obj_set k v ((k', v') :: props))
    with (if String.eqb k k' then (k, v) :: props else (k', v') :: obj_set k v props).
  destruct (String.eqb_spec k k') as [<- | Hk]; cbn [obj_get].
  - by destruct (String.eqb f k).
  - rewrite IH. destruct (String.eqb_spec f k) as [-> | Hf]; [|reflexivity].
    by apply String.eqb_neq in Hk as ->.
Qed.

Lemma among_does_not_offend options j : among options j -> ~ offends (ZEnum options) j.
Proof.
  intros (s & -> & Hin) Hoff.
  destruct (parse_type_offends _ [] _ Hoff) as (i & Hi & _). cbn in Hi.
  assert (string_in s options = true) as Hs.
  { apply existsb_exists. exists s. split; [exact Hin | apply String.eqb_refl]. }
  rewrite Hs in Hi. destruct Hi.
Qed.

Lemma forms_ok_ext p p' :
  formData p' = formData p -> adInput p' = adInput p -> adType p' = adType p ->
  forms_ok p -> forms_ok p'.
Proof. unfold forms_ok. by intros -> -> ->. Qed.

Lemma forms_ok_initial : forms_ok Home_initial.
Proof.
  unfold forms_ok, is_text, among, gen_inputs, gen_selects, inspect_inputs. cbn [app].
  repeat split; repeat (apply Forall_cons; split); try apply Forall_nil;
    try (eexists; split; [reflexivity | cbn; tauto]);
    try (eexists; reflexivity).
  cbn. tauto.
Qed.

Ltac open_forms :=
  unfold forms_ok, gen_inputs, gen_selects, inspect_inputs in *; cbn [app] in *;
  repeat match goal with
         | Hf : _ /\ _ |- _ => destruct Hf as [? ?]
         | Hf : Forall _ (_ :: _) |- _ => apply Forall_cons in Hf as [? ?]
         | Hf : Forall _ [] |- _ => clear Hf
         end.

Ltac close_forms :=
  repeat split; repeat (apply Forall_cons; split); try apply Forall_nil;
  cbn [formData adInput adType setFormData setAdInput setAdType];
  rewrite ?obj_get_obj_set; cbn [String.eqb Ascii.eqb Bool.eqb]; try assumption.

Lemma forms_ok_GenChange name value p :
  offered (GenChange name value) -> forms_ok p -> forms_ok (handleAdGenChange name value p).
Proof.
  intros Hoffered Hok. unfold handleAdGenChange. cbn in Hoffered.
  destruct Hoffered as [Hin | (options & Hin & Hvalue)].
  - open_forms. cbn in Hin.
    repeat (destruct Hin as [<- | Hin]; [close_forms; by eexists|]). destruct Hin.
  - open_forms. cbn in Hin.
    repeat (destruct Hin as [[= <- <-] | Hin];
            [close_forms; eexists; (split; [reflexivity | exact Hvalue])|]).
    destruct Hin.
Qed.

Lemma forms_ok_InspectChange name value p :
  offered (InspectChange name value) -> forms_ok p ->
  forms_ok (handleAdInspectChange name value p).
Proof.
  intros Hin Hok. unfold handleAdInspectChange. cbn in Hin. open_forms.
  repeat (destruct Hin as [<- | Hin]; [close_forms; by eexists|]). destruct Hin.
Qed.

(** A field that holds one of the options of its enumeration is in order. *)
Ltac enum_in_order Hoff :=
  match type of Hoff with
  | offends (z.enum ?values) (obj_get ?f ?props) =>
      match goal with
      | Ha : among _ (obj_get f props) |- _ =>
          apply (among_does_not_offend values (obj_get f props)); [|exact Hoff];
          let s := fresh "s" in
          let Hs := fresh "Hs" in
          let Hsin := fresh "Hsin" in
          destruct Ha as (s & Hs & Hsin); exists s; split; [exact Hs|];
          cbn in Hsin |- *; tauto
      end
  end.

Section Forms.
Context `{Platform}.

Lemma handleAdGenSubmit_forms b env p w :
  formData (handleAdGenSubmit b env p w).1 = formData p /\
  adInput (handleAdGenSubmit b env p w).1 = adInput p /\
  adType (handleAdGenSubmit b env p w).1 = adType p.
Proof.
  unfold handleAdGenSubmit. destruct (negb _); [done|].
  by destruct (request_ads _ _ _ w) as [[t | ads] w'].
Qed.

Lemma handleAdInspectSubmit_forms b env p w :
  formData (handleAdInspectSubmit b env p w).1 = formData p /\
  adInput (handleAdInspectSubmit b env p w).1 = adInput p /\
  adType (handleAdInspectSubmit b env p w).1 = adType p.
Proof.
  unfold handleAdInspectSubmit. destruct (negb _); [done|].
  destruct (String.eqb _ _); [done|].
  by destruct (request_analysis _ _ _ w) as [[t | analysis] w'].
Qed.

Lemma forms_ok_act a s : offered a -> forms_ok s.1 -> forms_ok (act a s).1.
Proof.
  intros Hoffered Hok. destruct a; cbn [act fst].
  - by apply forms_ok_GenChange.
  - by apply forms_ok_InspectChange.
  - cbn in Hoffered. unfold forms_ok in *. cbn. tauto.
  - by destruct tool.
  - exact Hok.
  - exact Hok.
  - destruct (handleAdGenSubmit_forms b env s.1 s.2) as (Hf & Hi & Ht).
    by apply (forms_ok_ext s.1).
  - destruct (handleAdInspectSubmit_forms b env s.1 s.2) as (Hf & Hi & Ht).
    by apply (forms_ok_ext s.1).
Qed.

Lemma visited_forms_ok w0 s : visited w0 s -> forms_ok s.1.
Proof.
  induction 1 as [|a s _ IH Hoffered]; [apply forms_ok_initial | by apply forms_ok_act].
Qed.

Lemma forms_ok_offence e p f t :
  forms_ok p -> In (f, t) (schema e) -> offends t (obj_get f (posted_object e p)) ->
  In f (typed e).
Proof.
  intros Hok Hin Hoff. open_forms. destruct e; cbn in Hin.
  - cbn [posted_object] in Hoff.
    repeat (destruct Hin as [[= <- <-] | Hin]; [try (cbn; tauto)|]);
      try solve [destruct Hin]; exfalso.
    all: try by enum_in_order Hoff.
    match goal with
    | Ha : among [EmptyString] _ |- _ => destruct Ha as (s & Hs & [<- | []])
    end.
    rewrite Hs in Hoff.
    destruct (parse_type_offends _ [] _ Hoff) as (i & Hi & _). destruct Hi.
  - cbn [posted_object] in Hoff.
    match goal with
    | Ha : among industries _ |- _ => pose proof Ha as (s & Hs & Hsin)
    end.
    rewrite Hs in Hoff. cbn [set_opt] in Hoff. rewrite !obj_get_obj_set in Hoff.
    repeat (destruct Hin as [[= <- <-] | Hin]; [try (cbn; tauto)|]);
      try solve [destruct Hin];
      cbn [String.eqb Ascii.eqb Bool.eqb] in Hoff; exfalso;
      (eapply among_does_not_offend; [|exact Hoff]);
      eexists; (split; [reflexivity|]); assumption.
Qed.

(** X8.  Whatever the visitor does with the controls of the page, the forms
    hold text under their inputs, one of the offered options under their
    select boxes and the initial values elsewhere; so the only fields of a
    posted body that can offend the schema of its route are the text inputs:
    no choice of options gets a 400. *)
Theorem only_text_inputs_can_offend w0 s :
  visited w0 s ->
  forms_ok s.1 /\
  forall e f t,
    In (f, t) (schema e) -> offends t (obj_get f (posted_object e s.1)) -> In f (typed e).
Proof.
  intros Hvisited. pose proof (visited_forms_ok w0 s Hvisited) as Hok.
  split; [exact Hok|]. intros e f t. by apply forms_ok_offence.
Qed.

End Forms.

(** * The further properties, on the scenario *)

Section MoreExamples.
Import Fixture.

Lemma client_ip_reads_first_entry_witness :
  client_ip {| x_forwarded_for := Some ("203.0.113.7" +:+ "," +:+ " 10.0.0.1");
               text := EmptyString |}
  = client_ip {| x_forwarded_for := Some "203.0.113.7"; text := EmptyString |}.
Proof.
  apply (client_ip_reads_first_entry "203.0.113.7" " 10.0.0.1").
  vm_compute. intros Hin.
  repeat (destruct Hin as [Hin | Hin]; [discriminate Hin|]). exact Hin.
Defined.

Lemma blank_header_is_the_loopback_client_witness :
  client_ip {| x_forwarded_for := Some "  , 10.0.0.1"; text := EmptyString |} = "127.0.0.1" /\
  client_ip {| x_forwarded_for := Some "  , 10.0.0.1"; text := EmptyString |}
  = client_ip {| x_forwarded_for := None; text := EmptyString |}.
Proof.
  apply (blank_header_is_the_loopback_client
           {| x_forwarded_for := Some "  , 10.0.0.1"; text := EmptyString |} "  , 10.0.0.1").
  - reflexivity.
  - intros c Hin. vm_compute in Hin.
    repeat (destruct Hin as [<- | Hin]; [reflexivity|]). destruct Hin.
Defined.

Lemma rejected_exactly_when_a_field_offends_witness :
  allowed Generate (at_ 1000 timeout) (post scenario_invalid) empty /\
  (status (POST Generate (at_ 1000 timeout) (post scenario_invalid) empty).1 = 400 <->
   exists f t, In (f, t) (schema Generate) /\ offends t (obj_get f (spread scenario_invalid))).
Proof.
  split; [split; vm_compute; reflexivity|].
  apply (rejected_exactly_when_a_field_offends Generate (at_ 1000 timeout)
           (post scenario_invalid) empty (spread scenario_invalid)).
  - split; vm_compute; reflexivity.
  - vm_compute. reflexivity.
Defined.

Lemma validated_is_the_body_cut_to_the_schema_witness :
  scenario = JObj (project (schema Generate) (spread scenario)) /\
  (forall f, json_get f scenario
             = if names_field (schema Generate) f then obj_get f (spread scenario) else None) /\
  map fst (project (schema Generate) (spread scenario))
  = List.filter (fun key => match obj_get key (spread scenario) with
                            | Some _ => true
                            | None => false
                            end)
      (map fst (schema Generate)) /\
  exists evs,
    trace (POST Generate (at_ 1000 (answers ads_reply)) (post scenario) empty).2
    = trace empty ++ evs /\
    hd_error (cache_keys evs)
    = Some (cacheKey Generate (JObj (project (schema Generate) (spread scenario)))).
Proof.
  apply (validated_is_the_body_cut_to_the_schema Generate (at_ 1000 (answers ads_reply))
           (post scenario) empty (spread scenario) scenario).
  - split; vm_compute; reflexivity.
  - vm_compute. reflexivity.
  - vm_compute. reflexivity.
Defined.

Lemma validation_is_idempotent_witness :
  safeParse (schema Inspect) (JObj (project (schema Inspect) (spread inspection)))
  = ParseSuccess (JObj (project (schema Inspect) (spread inspection))).
Proof.
  apply (validation_is_idempotent Inspect
           (JObj (("campaign", JNum 7) :: spread inspection))
           (JObj (project (schema Inspect) (spread inspection)))).
  vm_compute. reflexivity.
Defined.

Lemma every_issue_names_an_offending_field_witness :
  exists f t,
    In (f, t) (schema Generate) /\
    offends t (obj_get f (spread scenario_invalid)) /\
    json_get "path"
      (JObj [("path", JStr "goal");
             ("message", JStr "String must contain at least 10 character(s)")])
    = Some (JStr f).
Proof.
  apply (every_issue_names_an_offending_field Generate (at_ 1000 timeout)
           (post scenario_invalid) empty (spread scenario_invalid)
           [JObj [("path", JStr "goal");
                  ("message", JStr "String must contain at least 10 character(s)")];
            JObj [("path", JStr "brandVoice");
                  ("message",
                   JStr ("Invalid enum value. Expected 'Professional' | 'Friendly' | 'Witty' "
                         +:+ "| 'Urgent' | 'Inspirational', received 'Casual'"))]]).
  - split; vm_compute; reflexivity.
  - vm_compute. reflexivity.
  - vm_compute. reflexivity.
  - vm_compute. reflexivity.
  - left. reflexivity.
Defined.



Lemma limiter_outage_fails_closed_witness :
  status (POST Generate Wire.outage (post scenario) empty).1 = 500 /\
  json_get "error" (payload (POST Generate Wire.outage (post scenario) empty).1)
    = Some (JStr "fetch failed") /\
  json_get "code" (payload (POST Generate Wire.outage (post scenario) empty).1)
    = Some (JStr "UpstashError") /\
  windows (POST Generate Wire.outage (post scenario) empty).2 = windows empty /\
  entries (POST Generate Wire.outage (post scenario) empty).2 = entries empty /\
  trace (POST Generate Wire.outage (post scenario) empty).2
    = trace empty ++ [EvLimit (client_key Generate (client_ip (post scenario)));
                      EvConsole "error" "Endpoint error:"].
Proof.
  apply (limiter_outage_fails_closed Generate Wire.outage (post scenario) empty store_down).
  reflexivity.
Defined.

Lemma every_admitted_request_counts_witness :
  (used Generate (client_ip (post scenario)) (now (at_ 2000 timeout)) visit1.2 < 3)%nat /\
  used Generate (client_ip (post scenario)) (now (at_ 2000 timeout))
    (POST Generate (at_ 2000 timeout) (post scenario) visit1.2).2
  = S (used Generate (client_ip (post scenario)) (now (at_ 2000 timeout)) visit1.2).
Proof.
  apply (every_admitted_request_counts Generate (at_ 2000 timeout) (post scenario) visit1.2).
  split; vm_compute; reflexivity.
Defined.

Lemma limited_request_is_not_processed_witness :
  (POST Generate (at_ 4000 timeout) garbled visit3.2).1
    = limit_reached (limit_message Generate)
        (decision Generate (at_ 4000 timeout) garbled visit3.2).1.2 /\
  (forall other, client_ip other = client_ip garbled ->
                 POST Generate (at_ 4000 timeout) other visit3.2
                 = POST Generate (at_ 4000 timeout) garbled visit3.2) /\
  windows (POST Generate (at_ 4000 timeout) garbled visit3.2).2 = windows visit3.2 /\
  entries (POST Generate (at_ 4000 timeout) garbled visit3.2).2 = entries visit3.2 /\
  trace (POST Generate (at_ 4000 timeout) garbled visit3.2).2
    = trace visit3.2 ++ [EvLimit (client_key Generate (client_ip garbled))].
Proof.
  apply (limited_request_is_not_processed Generate (at_ 4000 timeout) garbled visit3.2).
  - reflexivity.
  - vm_compute. reflexivity.
Defined.


Lemma provider_failure_is_reported_and_not_cached_witness :
  status (POST Inspect (at_ 1000 timeout) (post inspection) empty).1 = 500 /\
  json_get "error" (payload (POST Inspect (at_ 1000 timeout) (post inspection) empty).1)
    = Some (JStr "Analysis failed: Request timed out.") /\
  json_get "code" (payload (POST Inspect (at_ 1000 timeout) (post inspection) empty).1)
    = Some (JStr "Error") /\
  entries (POST Inspect (at_ 1000 timeout) (post inspection) empty).2 = entries empty /\
  exists evs,
    trace (POST Inspect (at_ 1000 timeout) (post inspection) empty).2 = trace empty ++ evs /\
    forallb (fun ev => negb (is_cache_write ev)) evs = true /\
    last evs = Some (EvConsole "error" "Inspection error:").
Proof.
  apply (provider_failure_is_reported_and_not_cached Inspect (at_ 1000 timeout)
           (post inspection) empty inspection "Analysis failed: Request timed out.").
  - split; vm_compute; reflexivity.
  - exists inspection. split; vm_compute; reflexivity.
  - vm_compute. reflexivity.
  - reflexivity.
Defined.

Lemma diagnostics_reveal_presence_only_witness :
  GET_debug {| OPENAI_API_KEY := Some "sk-live-1";
               UPSTASH_REDIS_REST_URL := Some "https://eu1.example";
               UPSTASH_REDIS_REST_TOKEN := None |}
  = GET_debug {| OPENAI_API_KEY := Some "sk-test-2";
                 UPSTASH_REDIS_REST_URL := Some "https://us1.example";
                 UPSTASH_REDIS_REST_TOKEN := Some EmptyString |} /\
  GET_check_env (fun found => if found then "[x]" else "[ ]")
    {| OPENAI_API_KEY := Some "sk-live-1";
       UPSTASH_REDIS_REST_URL := Some "https://eu1.example";
       UPSTASH_REDIS_REST_TOKEN := None |}
  = GET_check_env (fun found => if found then "[x]" else "[ ]")
      {| OPENAI_API_KEY := Some "sk-test-2";
         UPSTASH_REDIS_REST_URL := Some "https://us1.example";
         UPSTASH_REDIS_REST_TOKEN := Some EmptyString |} /\
  status (GET_debug {| OPENAI_API_KEY := Some "sk-live-1";
                       UPSTASH_REDIS_REST_URL := Some "https://eu1.example";
                       UPSTASH_REDIS_REST_TOKEN := None |}) = 200 /\
  json_get "status"
    (payload (GET_debug {| OPENAI_API_KEY := Some "sk-live-1";
                           UPSTASH_REDIS_REST_URL := Some "https://eu1.example";
                           UPSTASH_REDIS_REST_TOKEN := None |}))
  = Some (JStr "healthy").
Proof.
  apply (diagnostics_reveal_presence_only (fun found => if found then "[x]" else "[ ]")
           {| OPENAI_API_KEY := Some "sk-live-1";
              UPSTASH_REDIS_REST_URL := Some "https://eu1.example";
              UPSTASH_REDIS_REST_TOKEN := None |}
           {| OPENAI_API_KEY := Some "sk-test-2";
              UPSTASH_REDIS_REST_URL := Some "https://us1.example";
              UPSTASH_REDIS_REST_TOKEN := Some EmptyString |}); reflexivity.
Defined.

End MoreExamples.

(** * A visit to the page *)

Section Visit.
Import Wire.

(** The visitor submits the filled form, then an empty one, then analyses the
    draft: the page shows the ads, then the route's refusal, then the
    analysis. *)
Example visit_as_shown :
  generatedAds (handleAdGenSubmit browser (Fixture.at_ 1000 (Fixture.answers Fixture.ads_reply))
                  filled Fixture.empty).1
  = default JNull (json_get "ads" Fixture.ads_reply) /\
  error (handleAdGenSubmit browser (Fixture.at_ 1000 Fixture.timeout)
           (toggleTerms generator Home_initial) Fixture.empty).1
  = "Validation failed" /\
  adAnalysis (handleAdInspectSubmit browser
                (Fixture.at_ 1000 (Fixture.answers Fixture.analysis_reply))
                drafted Fixture.empty).1
  = Fixture.analysis_reply /\
  error (handleAdGenSubmit offline (Fixture.at_ 1000 Fixture.timeout) filled Fixture.empty).1
  = "Failed to fetch".
Proof. vm_compute. repeat split. Qed.

Lemma only_schema_fields_matter_witness :
  POST Generate (Fixture.at_ 1000 (Fixture.answers Fixture.ads_reply))
    (Fixture.post Fixture.scenario) Fixture.empty
  = POST Generate (Fixture.at_ 1000 (Fixture.answers Fixture.ads_reply))
      (Fixture.post (JObj (("campaign", JNum 7) :: rev (spread Fixture.scenario))))
      Fixture.empty.
Proof.
  apply (only_schema_fields_matter Generate
           (Fixture.at_ 1000 (Fixture.answers Fixture.ads_reply))
           (Fixture.post Fixture.scenario)
           (Fixture.post (JObj (("campaign", JNum 7) :: rev (spread Fixture.scenario))))
           Fixture.empty
           (spread Fixture.scenario)
           (("campaign", JNum 7) :: rev (spread Fixture.scenario))).
  - reflexivity.
  - vm_compute. reflexivity.
  - vm_compute. reflexivity.
  - intros f t Hin. cbn in Hin.
    repeat (destruct Hin as [[= <- <-] | Hin]; [reflexivity|]). destruct Hin.
Defined.

Lemma non_object_body_is_one_issue_without_path_witness :
  status (POST Inspect (Fixture.at_ 1000 Fixture.timeout)
            {| x_forwarded_for := None; text := "[1, 2]" |} Fixture.empty).1 = 400 /\
  exists msg,
    json_get "issues"
      (payload (POST Inspect (Fixture.at_ 1000 Fixture.timeout)
                  {| x_forwarded_for := None; text := "[1, 2]" |} Fixture.empty).1)
    = Some (JArr [JObj [("path", JStr EmptyString); ("message", JStr msg)]]).
Proof.
  apply (non_object_body_is_one_issue_without_path Inspect (Fixture.at_ 1000 Fixture.timeout)
           {| x_forwarded_for := None; text := "[1, 2]" |} Fixture.empty
           (JArr [JNum 1; JNum 2])).
  - split; vm_compute; reflexivity.
  - vm_compute. reflexivity.
  - discriminate.
Defined.

Lemma page_shows_the_refusal_witness :
  (exists msg,
      json_get "error"
        (payload (POST Generate (Fixture.at_ 1000 Fixture.timeout)
                    (posted Generate browser (toggleTerms generator Home_initial))
                    Fixture.empty).1)
      = Some (JStr msg) /\
      error (submit Generate browser (Fixture.at_ 1000 Fixture.timeout)
               (toggleTerms generator Home_initial) Fixture.empty).1
      = if String.eqb msg EmptyString then fallback Generate else msg) /\
  result Generate (submit Generate browser (Fixture.at_ 1000 Fixture.timeout)
                     (toggleTerms generator Home_initial) Fixture.empty).1
  = no_result Generate /\
  previousAnalysisInput (submit Generate browser (Fixture.at_ 1000 Fixture.timeout)
                           (toggleTerms generator Home_initial) Fixture.empty).1
  = previousAnalysisInput (toggleTerms generator Home_initial) /\
  (status (POST Generate (Fixture.at_ 1000 Fixture.timeout)
             (posted Generate browser (toggleTerms generator Home_initial))
             Fixture.empty).1 = 400 ->
   error (submit Generate browser (Fixture.at_ 1000 Fixture.timeout)
            (toggleTerms generator Home_initial) Fixture.empty).1
   = "Validation failed") /\
  (status (POST Generate (Fixture.at_ 1000 Fixture.timeout)
             (posted Generate browser (toggleTerms generator Home_initial))
             Fixture.empty).1 = 429 ->
   error (submit Generate browser (Fixture.at_ 1000 Fixture.timeout)
            (toggleTerms generator Home_initial) Fixture.empty).1
   = limit_message Generate).
Proof.
  apply (page_shows_the_refusal Generate browser (Fixture.at_ 1000 Fixture.timeout)
           (toggleTerms generator Home_initial) Fixture.empty).
  - reflexivity.
  - reflexivity.
  - vm_compute. discriminate.
  - vm_compute. reflexivity.
Defined.

Lemma page_decides_by_the_content_witness :
  (json_get (content_key Generate)
     (payload (POST Generate (Fixture.at_ 1000 (Fixture.answers Fixture.ads_reply))
                 (posted Generate browser filled) Fixture.empty).1)
   = Some (result Generate
             (submit Generate browser (Fixture.at_ 1000 (Fixture.answers Fixture.ads_reply))
                filled Fixture.empty).1) /\
   error (submit Generate browser (Fixture.at_ 1000 (Fixture.answers Fixture.ads_reply))
            filled Fixture.empty).1 = EmptyString /\
   previousAnalysisInput
     (submit Generate browser (Fixture.at_ 1000 (Fixture.answers Fixture.ads_reply))
        filled Fixture.empty).1
   = previousAnalysisInput filled) /\
  (result Inspect
     (submit Inspect browser (Fixture.at_ 1000 Fixture.timeout) drafted Fixture.empty).1
   = no_result Inspect /\
   error (submit Inspect browser (Fixture.at_ 1000 Fixture.timeout) drafted Fixture.empty).1
   = or_message
       (json_get "error"
          (payload (POST Inspect (Fixture.at_ 1000 Fixture.timeout)
                      (posted Inspect browser drafted) Fixture.empty).1))
       (fallback Inspect) /\
   previousAnalysisInput
     (submit Inspect browser (Fixture.at_ 1000 Fixture.timeout) drafted Fixture.empty).1
   = previousAnalysisInput drafted).
Proof.
  split.
  - apply (page_decides_by_the_content Generate browser
             (Fixture.at_ 1000 (Fixture.answers Fixture.ads_reply)) filled Fixture.empty
             (payload (POST Generate (Fixture.at_ 1000 (Fixture.answers Fixture.ads_reply))
                         (posted Generate browser filled) Fixture.empty).1)).
    + reflexivity.
    + reflexivity.
    + vm_compute. reflexivity.
    + vm_compute. reflexivity.
    + vm_compute. reflexivity.
  - apply (page_decides_by_the_content Inspect browser
             (Fixture.at_ 1000 Fixture.timeout) drafted Fixture.empty
             (payload (POST Inspect (Fixture.at_ 1000 Fixture.timeout)
                         (posted Inspect browser drafted) Fixture.empty).1)).
    + reflexivity.
    + reflexivity.
    + vm_compute. reflexivity.
    + vm_compute. reflexivity.
    + vm_compute. reflexivity.
Defined.

Lemma analysed_ad_is_not_sent_again_witness :
  handleAdInspectSubmit browser (Fixture.at_ 2000 (Fixture.answers Fixture.analysis_reply))
    (handleAdGenChange "industry" "Health"
       (handleAdInspectSubmit browser
          (Fixture.at_ 1000 (Fixture.answers Fixture.analysis_reply)) drafted Fixture.empty).1)
    (handleAdInspectSubmit browser
       (Fixture.at_ 1000 (Fixture.answers Fixture.analysis_reply)) drafted Fixture.empty).2
  = (setError "Please modify some fields to get a new analysis"
       (handleAdGenChange "industry" "Health"
          (handleAdInspectSubmit browser
             (Fixture.at_ 1000 (Fixture.answers Fixture.analysis_reply))
             drafted Fixture.empty).1),
     (handleAdInspectSubmit browser
        (Fixture.at_ 1000 (Fixture.answers Fixture.analysis_reply)) drafted Fixture.empty).2).
Proof.
  apply (analysed_ad_is_not_sent_again browser
           (Fixture.at_ 1000 (Fixture.answers Fixture.analysis_reply)) drafted Fixture.empty).
  - reflexivity.
  - vm_compute. reflexivity.
  - reflexivity.
  - reflexivity.
  - reflexivity.
  - reflexivity.
Defined.

Lemma only_text_inputs_can_offend_witness :
  forms_ok (act (GenChange "brandVoice" "Witty")
              (act (GenChange "goal" "Grow") (Home_initial, Fixture.empty))).1 /\
  forall e f t,
    In (f, t) (schema e) ->
    offends t (obj_get f
                 (posted_object e
                    (act (GenChange "brandVoice" "Witty")
                       (act (GenChange "goal" "Grow") (Home_initial, Fixture.empty))).1)) ->
    In f (typed e).
Proof.
  apply (only_text_inputs_can_offend Fixture.empty).
  apply visit_act; [apply visit_act; [apply visit_start|]|].
  - left. vm_compute. tauto.
  - right. exists brandVoices. split; vm_compute; tauto.
Defined.

End Visit.

(** * Where the code departs from the specification *)

Section Departures.
Import Wire.

(** C3, as stated, fails for a body that is JSON but no object.  The body
    [[]] parses, and every required field is missing from it; the answer is a
    400 whose [issues] hold one entry, with the empty path: no entry names a
    field. *)
Lemma non_object_body_names_no_field :
  allowed Generate (Fixture.at_ 1000 Fixture.timeout) bare_list Fixture.empty /\
  JSON_parse (text bare_list) = Some (JArr []) /\
  (exists t, In ("goal", t) (schema Generate) /\ offends t (json_get "goal" (JArr []))) /\
  (POST Generate (Fixture.at_ 1000 Fixture.timeout) bare_list Fixture.empty).1
  = NextResponse_json
      (JObj [("error", JStr "Validation failed");
             ("issues", JArr [JObj [("path", JStr EmptyString);
                                    ("message", JStr "Expected object, received array")]])])
      400 /\
  ~ exists issues entry,
      json_get "issues"
        (payload (POST Generate (Fixture.at_ 1000 Fixture.timeout) bare_list Fixture.empty).1)
      = Some (JArr issues) /\
      In entry issues /\
      json_get "path" entry = Some (JStr "goal").
Proof.
  split; [split; vm_compute; reflexivity|].
  split; [vm_compute; reflexivity|].
  split.
  { eexists. split; [right; left; reflexivity | constructor]. }
  split; [vm_compute; reflexivity|].
  intros (issues & entry & Hissues & Hin & Hpath).
  vm_compute in Hissues. injection Hissues as <-.
  destruct Hin as [<- | []]. vm_compute in Hpath. discriminate.
Qed.

(** C9, as stated, fails: the message of a 500 answer is not a generic one.
    In production, a failure of the provider's call is answered with the
    provider's own message after a fixed prefix, so two failures give two
    messages; a failure of the store at the limiter is answered with the
    store's own message and the name of its error as the code. *)
Lemma failure_text_reaches_the_caller :
  NODE_ENV (Fixture.at_ 1000 Fixture.timeout) = "production" /\
  (POST Generate (Fixture.at_ 1000 Fixture.timeout) (Fixture.post Fixture.scenario)
     Fixture.empty).1
  = NextResponse_json
      (JObj [("error", JStr "OpenAI request failed: Request timed out.");
             ("code", JStr "Error")])
      500 /\
  (POST Generate (Fixture.at_ 1000 refused) (Fixture.post Fixture.scenario) Fixture.empty).1
  = NextResponse_json
      (JObj [("error", JStr "OpenAI request failed: connect ECONNREFUSED 10.0.0.5:443");
             ("code", JStr "Error")])
      500 /\
  (POST Inspect (Fixture.at_ 1000 refused) (Fixture.post Fixture.inspection) Fixture.empty).1
  = NextResponse_json
      (JObj [("error", JStr "Analysis failed: connect ECONNREFUSED 10.0.0.5:443");
             ("code", JStr "Error")])
      500 /\
  NODE_ENV outage = "production" /\
  (POST Inspect outage (Fixture.post Fixture.inspection) Fixture.empty).1
  = NextResponse_json
      (JObj [("error", JStr "fetch failed"); ("code", JStr "UpstashError")])
      500.
Proof. vm_compute. repeat split. Qed.

End Departures.
